(** * calrissian.report: resource-usage reports, parsers and the timeline sweep

    A shallow embedding of [calrissian/report.py].  Python values are
    modelled as the code uses them: an [int] is a [Z], a [float] is an
    IEEE-754 binary64 number ([spec_float] of the standard library, with
    the correctly rounded operations of [SpecFloat]), a [datetime] is a
    count of microseconds, [None] is the [None] of an [option], and an
    exception is a value of [exn] carried by the [res] monad.  The
    [Reporter] singleton and [write_report], which only guard and write out
    one timeline, are left out. *)

From Stdlib Require Import ZArith List Bool Ascii String Lia.
From Stdlib Require Import Sorting.Sorted Sorting.Permutation.
From Stdlib Require Import Floats.SpecFloat.
Import ListNotations.

Open Scope Z_scope.

(** ** Python exceptions and results *)

(** The exceptions [report.py] can raise.  A [ValueError] keeps the values
    its message is formatted from instead of the formatted text. *)
Inductive exn : Type :=
| TypeError
| AttributeError
| OverflowError
| ZeroDivisionError
| IndexError
  (** the [ValueError] of [float(s)] on a string that is not a number *)
| ValueError_NotAFloat (s : string)
  (** ['Negative time is not allowed: {}'.format(total_seconds)] *)
| ValueError_NegativeTime (total_seconds : spec_float)
  (** ['Unable to parse \'{}\' as {}. See {}'.format(value, cls.kind, cls.url)] *)
| ValueError_UnableToParse (value : string) (kind url : option string).

Inductive res (A : Type) : Type :=
| Ok (a : A)
| Raise (e : exn).
Arguments Ok {A} a.
Arguments Raise {A} e.

Definition bind {A B : Type} (m : res A) (k : A -> res B) : res B :=
  match m with
  | Ok a => k a
  | Raise e => Raise e
  end.

Notation "x <- m ;; k" := (bind m (fun x => k))
  (at level 61, m at next level, right associativity).

(** ** Python numbers *)

Module Float.

Definition prec : Z := 53.
Definition emax : Z := 1024.

Definition float : Type := spec_float.

Definition add : float -> float -> float := SFadd prec emax.
Definition sub : float -> float -> float := SFsub prec emax.
Definition mul : float -> float -> float := SFmul prec emax.
Definition div : float -> float -> float := SFdiv prec emax.

Definition is_zero (x : float) : bool :=
  match x with S754_zero _ => true | _ => false end.

Definition is_infinity (x : float) : bool :=
  match x with S754_infinity _ => true | _ => false end.

(** The binary64 number nearest to the integer [z] (ties to even). *)
Definition of_Z (z : Z) : float := binary_normalize prec emax z 0 false.

(** The binary64 number nearest to the quotient [a / b] of two integers,
    [b <> 0]: the rounding of a true division of two Python ints and of
    a decimal literal with a negative exponent. *)
Definition of_quotient (a b : Z) : float :=
  let s := xorb (a <? 0) (b <? 0) in
  let '(mz, ez, lz) := SFdiv_core_binary prec emax (Z.abs a) 0 (Z.abs b) 0 in
  binary_round_aux prec emax s mz ez lz.

(** The binary64 number nearest to [m * 10 ^ e]: the value of a decimal
    literal of the source or of a string given to [float()]. *)
Definition of_decimal (m e : Z) : float :=
  if 0 <=? e then of_Z (m * 10 ^ e) else of_quotient m (10 ^ (- e)).

(** Exact comparison of an integer with a float, as Python compares an
    [int] with a [float]: [None] when the float is a NaN. *)
Definition compare_Z (z : Z) (x : float) : option comparison :=
  match x with
  | S754_nan => None
  | S754_infinity s => Some (if s then Gt else Lt)
  | S754_zero _ => Some (z ?= 0)
  | S754_finite s m e =>
      let v := if s then Z.neg m else Z.pos m in
      Some (if 0 <=? e then z ?= v * 2 ^ e else z * 2 ^ (- e) ?= v)
  end.

End Float.

(** A Python number: an [int] or a [float]. *)
Inductive num : Type :=
| PInt (z : Z)
| PFloat (x : Float.float).

Module Num.

(** [float(n)] for a number: an [int] that rounds to an infinity raises
    [OverflowError]. *)
Definition to_float (n : num) : res Float.float :=
  match n with
  | PFloat x => Ok x
  | PInt z =>
      let x := Float.of_Z z in
      if Float.is_infinity x then Raise OverflowError else Ok x
  end.

Definition arith (fz : Z -> Z -> Z) (ff : Float.float -> Float.float -> Float.float)
    (a b : num) : res num :=
  match a, b with
  | PInt x, PInt y => Ok (PInt (fz x y))
  | _, _ =>
      x <- to_float a ;;
      y <- to_float b ;;
      Ok (PFloat (ff x y))
  end.

Definition add : num -> num -> res num := arith Z.add Float.add.
Definition sub : num -> num -> res num := arith Z.sub Float.sub.
Definition mul : num -> num -> res num := arith Z.mul Float.mul.

(** [a / b]: true division; two ints give the correctly rounded
    quotient. *)
Definition truediv (a b : num) : res num :=
  match a, b with
  | PInt x, PInt y =>
      if y =? 0 then Raise ZeroDivisionError
      else
        let q := Float.of_quotient x y in
        if Float.is_infinity q then Raise OverflowError else Ok (PFloat q)
  | _, _ =>
      x <- to_float a ;;
      y <- to_float b ;;
      if Float.is_zero y then Raise ZeroDivisionError
      else Ok (PFloat (Float.div x y))
  end.

Definition compare (a b : num) : option comparison :=
  match a, b with
  | PInt x, PInt y => Some (x ?= y)
  | PFloat x, PFloat y => SFcompare x y
  | PInt x, PFloat y => Float.compare_Z x y
  | PFloat x, PInt y => option_map CompOpp (Float.compare_Z y x)
  end.

(** [a < b] and [a > b]. *)
Definition ltb (a b : num) : bool :=
  match compare a b with Some Lt => true | _ => false end.
Definition gtb (a b : num) : bool :=
  match compare a b with Some Gt => true | _ => false end.

(** [a <= b]. *)
Definition leb (a b : num) : bool :=
  match compare a b with Some (Lt | Eq) => true | _ => false end.

(** [a == b]. *)
Definition eqb (a b : num) : bool :=
  match compare a b with Some Eq => true | _ => false end.

(** The builtin [max(a, b)]: the first argument unless the second is
    greater. *)
Definition max (a b : num) : num := if gtb b a then b else a.

(** The builtin [sum(l)]: a left fold of [+] from the int [0]. *)
Fixpoint sum_from (acc : num) (l : list num) : res num :=
  match l with
  | [] => Ok acc
  | x :: l' => acc' <- add acc x ;; sum_from acc' l'
  end.

Definition sum (l : list num) : res num := sum_from (PInt 0) l.

End Num.

(** Evaluate every element of a list comprehension, left to right, stopping
    at the first exception. *)
Fixpoint mapM {A B : Type} (f : A -> res B) (l : list A) : res (list B) :=
  match l with
  | [] => Ok []
  | a :: l' => b <- f a ;; bs <- mapM f l' ;; Ok (b :: bs)
  end.

(** ** Python strings

    A [str] is modelled as a [string] whose characters are the code points
    below 256. *)

Module Str.

(** [s.endswith(suffix)] *)
Fixpoint endswith (s suffix : string) : bool :=
  if String.eqb s suffix then true
  else
    match s with
    | EmptyString => false
    | String _ s' => endswith s' suffix
    end.

Fixpoint remove_from (old : string) (skip : nat) (s : string) : string :=
  match s with
  | EmptyString => EmptyString
  | String c s' =>
      match skip with
      | S k => remove_from old k s'
      | O =>
          if String.prefix old s
          then remove_from old (Nat.pred (String.length old)) s'
          else String c (remove_from old O s')
      end
  end.

(** [s.replace(old, '')]: every occurrence of [old], found left to
    right without overlap, is removed. *)
Definition remove (s old : string) : string :=
  match old with
  | EmptyString => s
  | _ => remove_from old O s
  end.

Definition code (c : ascii) : Z := Z.of_nat (nat_of_ascii c).

Definition is_digit (c : ascii) : bool := (48 <=? code c) && (code c <=? 57).

(** White space as [float()] strips it: the ASCII characters of
    [Py_ISSPACE] and the two spaces of the Latin-1 range. *)
Definition is_space (c : ascii) : bool :=
  let n := code c in
  ((9 <=? n) && (n <=? 13)) || (n =? 32) || (n =? 133) || (n =? 160).

Definition lower (c : ascii) : ascii :=
  let n := code c in
  if (65 <=? n) && (n <=? 90) then ascii_of_nat (Z.to_nat (n + 32)) else c.

Fixpoint lstrip (l : list ascii) : list ascii :=
  match l with
  | c :: l' => if is_space c then lstrip l' else l
  | [] => []
  end.

Definition strip (l : list ascii) : list ascii :=
  rev (lstrip (rev (lstrip l))).

(** Underscores of a numeric literal: each must follow a digit and be
    followed by a digit; they are dropped.  [prev] is the previous
    character. *)
Fixpoint drop_underscores (prev : ascii) (l : list ascii)
    : option (list ascii) :=
  match l with
  | [] => if Ascii.eqb prev "_" then None else Some []
  | c :: l' =>
      if Ascii.eqb c "_" then
        if is_digit prev then drop_underscores c l' else None
      else if Ascii.eqb prev "_" && negb (is_digit c) then None
      else option_map (cons c) (drop_underscores c l')
  end.

(** Leading decimal digits: their value on top of [acc], how many there
    are, and the rest of the input. *)
Fixpoint take_digits (l : list ascii) (acc count : Z)
    : Z * Z * list ascii :=
  match l with
  | c :: l' =>
      if is_digit c then take_digits l' (10 * acc + (code c - 48)) (count + 1)
      else (acc, count, l)
  | [] => (acc, count, [])
  end.

Definition take_sign (l : list ascii) : bool * list ascii :=
  match l with
  | c :: l' =>
      if Ascii.eqb c "-" then (true, l')
      else if Ascii.eqb c "+" then (false, l')
      else (false, l)
  | [] => (false, [])
  end.

(** What follows the [e] of an exponent: [[sign] digits], to the end of
    the input. *)
Definition parse_exponent (l : list ascii) : option Z :=
  let '(neg, r) := take_sign l in
  let '(x, nx, rest) := take_digits r 0 0 in
  match rest with
  | [] => if nx =? 0 then None else Some (if neg then - x else x)
  | _ :: _ => None
  end.

(** An unsigned decimal literal [digits [. digits] [(e|E) [sign] digits]]
    with at least one digit before the exponent, as a mantissa and a
    power of ten. *)
Definition parse_decimal (l : list ascii) : option (Z * Z) :=
  let '(m1, n1, r1) := take_digits l 0 0 in
  let '(m2, n2, r2) :=
    match r1 with
    | c :: r => if Ascii.eqb c "." then take_digits r m1 0 else (m1, 0, r1)
    | [] => (m1, 0, r1)
    end in
  if n1 + n2 =? 0 then None
  else
    match r2 with
    | [] => Some (m2, - n2)
    | c :: r3 =>
        if Ascii.eqb (lower c) "e" then
          match parse_exponent r3 with
          | Some x => Some (m2, x - n2)
          | None => None
          end
        else None
    end.

Definition unsigned_float (l : list ascii) : option Float.float :=
  let w := string_of_list_ascii (map lower l) in
  if String.eqb w "inf" || String.eqb w "infinity" then Some (S754_infinity false)
  else if String.eqb w "nan" then Some S754_nan
  else
    match parse_decimal l with
    | Some (m, e) => Some (Float.of_decimal m e)
    | None => None
    end.

(** The builtin [float(s)] on a string: [None] stands for the
    [ValueError] it raises on a string that is not a number. *)
Definition to_float (s : string) : option Float.float :=
  match drop_underscores " " (list_ascii_of_string s) with
  | None => None
  | Some l =>
      let '(neg, body) := take_sign (strip l) in
      match unsigned_float body with
      | Some x => Some (if neg then SFopp x else x)
      | None => None
      end
  end.

End Str.

(** ** TimedReport *)

(** A [datetime]: microseconds on the proleptic calendar.  Subtracting two
    of them gives a [timedelta], again a number of microseconds. *)
Definition datetime : Type := Z.

(** [SECONDS_PER_HOUR = 60.0 * 60.0] *)
Definition SECONDS_PER_HOUR : Float.float :=
  Float.mul (Float.of_decimal 60 0) (Float.of_decimal 60 0).

(** A [timedelta], the difference of two [datetime]s: a number of
    microseconds. *)
Module Timedelta.

(** [total_seconds()]: the microseconds divided by [10**6], a true division
    of two ints.  The span of a [timedelta] is far inside the range of a
    float, so no overflow is raised. *)
Definition total_seconds (delta : Z) : Float.float :=
  Float.of_quotient delta (10 ^ 6).

End Timedelta.

Record TimedReport : Type := mkTimedReport {
  start_time : option datetime;
  finish_time : option datetime
}.

(** [start(start_time=None)] and [finish(finish_time=None)]; [now] is the
    reading of [datetime.now()].  A [datetime] is always true. *)
Definition start (now : datetime) (t : option datetime) (self : TimedReport)
    : TimedReport :=
  {| start_time := Some (match t with Some v => v | None => now end);
     finish_time := finish_time self |}.

Definition finish (now : datetime) (t : option datetime) (self : TimedReport)
    : TimedReport :=
  {| start_time := start_time self;
     finish_time := Some (match t with Some v => v | None => now end) |}.

Definition elapsed_seconds (self : TimedReport) : res num :=
  match finish_time self, start_time self with
  | Some f, Some s =>
      let delta := f - s in
      let total_seconds := Timedelta.total_seconds delta in
      if Num.ltb (PFloat total_seconds) (PInt 0)
      then Raise (ValueError_NegativeTime total_seconds)
      else Ok (PFloat total_seconds)
  | _, _ => Raise TypeError
  end.

Definition elapsed_hours (self : TimedReport) : res num :=
  s <- elapsed_seconds self ;;
  Num.truediv s (PFloat SECONDS_PER_HOUR).

(** ** ResourceParser and its subclasses *)

(** A parser class: its three class attributes.  [suffixes] keeps the
    order of the dictionary, which [items()] follows. *)
Record ParserClass : Type := mkParserClass {
  kind : option string;
  url : option string;
  suffixes : option (list (string * num))
}.

Definition ResourceParser : ParserClass :=
  {| kind := None; url := None; suffixes := None |}.

Definition MemoryParser : ParserClass :=
  {| kind := Some "memory"%string;
     url := Some "https://kubernetes.io/docs/concepts/configuration/manage-compute-resources-container/#meaning-of-memory"%string;
     suffixes := Some
       [ ("E"%string, PFloat (Float.of_decimal 1 18));
         ("P"%string, PFloat (Float.of_decimal 1 15));
         ("T"%string, PFloat (Float.of_decimal 1 12));
         ("G"%string, PFloat (Float.of_decimal 1 9));
         ("M"%string, PFloat (Float.of_decimal 1 6));
         ("K"%string, PFloat (Float.of_decimal 1 3));
         ("Ei"%string, PInt (2 ^ 60));
         ("Pi"%string, PInt (2 ^ 50));
         ("Ti"%string, PInt (2 ^ 40));
         ("Gi"%string, PInt (2 ^ 30));
         ("Mi"%string, PInt (2 ^ 20));
         ("Ki"%string, PInt (2 ^ 10)) ] |}.

Definition CPUParser : ParserClass :=
  {| kind := Some "cpu"%string;
     url := Some "https://kubernetes.io/docs/concepts/configuration/manage-compute-resources-container/#meaning-of-cpu"%string;
     suffixes := Some [ ("m"%string, PFloat (Float.of_decimal 1 (-3))) ] |}.

(** [float(s)] as a computation that may raise. *)
Definition float_of_str (s : string) : res num :=
  match Str.to_float s with
  | Some x => Ok (PFloat x)
  | None => Raise (ValueError_NotAFloat s)
  end.

(** The [for] loop of [parse] and the statement after it. *)
Fixpoint parse_items (items : list (string * num)) (value : string) : res num :=
  match items with
  | (suffix, factor) :: items' =>
      if Str.endswith value suffix
      then x <- float_of_str (Str.remove value suffix) ;; Num.mul x factor
      else parse_items items' value
  | [] =>
      (* No suffix, assume raw number *)
      float_of_str value
  end.

(** The body of the [try]: [cls.suffixes.items()] on [None] raises. *)
Definition parse_try (cls : ParserClass) (value : string) : res num :=
  match suffixes cls with
  | Some items => parse_items items value
  | None => Raise AttributeError
  end.

(** [ResourceParser.parse]: whatever the body raises is replaced by the
    [ValueError] that names the value, the kind and the URL. *)
Definition parse (cls : ParserClass) (value : string) : res num :=
  match parse_try cls value with
  | Ok x => Ok x
  | Raise _ => Raise (ValueError_UnableToParse value (kind cls) (url cls))
  end.

(** [MemoryParser.parse_to_megabytes] *)
Definition parse_to_megabytes (cls : ParserClass) (value : string) : res num :=
  x <- parse cls value ;;
  Num.truediv x (PInt 1024).

(** ** TimedResourceReport *)

Record TimedResourceReport : Type := mkTimedResourceReport {
  cpus : num;
  ram_megabytes : num;
  timed : TimedReport
}.
Coercion timed : TimedResourceReport >-> TimedReport.

Definition ram_megabyte_hours (self : TimedResourceReport) : res num :=
  h <- elapsed_hours self ;;
  Num.mul (ram_megabytes self) h.

Definition cpu_hours (self : TimedResourceReport) : res num :=
  h <- elapsed_hours self ;;
  Num.mul (cpus self) h.

(** The completion result a finished job hands over. *)
Record CompletionResult : Type := mkCompletionResult {
  result_cpus : string;
  result_memory : string;
  result_start_time : option datetime;
  result_finish_time : option datetime
}.

Definition from_completion_result (result : CompletionResult)
    : res TimedResourceReport :=
  c <- parse CPUParser (result_cpus result) ;;
  m <- parse_to_megabytes MemoryParser (result_memory result) ;;
  Ok {| cpus := c; ram_megabytes := m;
        timed := {| start_time := result_start_time result;
                    finish_time := result_finish_time result |} |}.

(** ** Objects held by a timeline *)

(** The values stored in an attribute dictionary. *)
#[warnings="-register-all"]
Inductive pyval : Type :=
| VNone
| VNum (n : num)
| VDatetime (t : datetime)
| VList (l : list pyval)
| VDict (d : list (string * pyval)).

Definition VTime (t : option datetime) : pyval :=
  match t with
  | Some v => VDatetime v
  | None => VNone
  end.

(** An element of [TimelineReport.children]: a report object or, once
    [to_yaml] has run, a plain [dict]. *)
Inductive child : Type :=
| Report (r : TimedResourceReport)
| Dict (d : list (string * pyval)).

(** The attribute dictionary of a report, in the order [__init__] sets
    the attributes. *)
Definition report_vars (r : TimedResourceReport) : list (string * pyval) :=
  [ ("cpus"%string, VNum (cpus r));
    ("ram_megabytes"%string, VNum (ram_megabytes r));
    ("start_time"%string, VTime (start_time r));
    ("finish_time"%string, VTime (finish_time r)) ].

(** [vars(x)]: the attribute dictionary of an object; a [dict] has
    none. *)
Definition vars (x : child) : res (list (string * pyval)) :=
  match x with
  | Report r => Ok (report_vars r)
  | Dict _ => Raise TypeError
  end.

(** Attribute access [x.name]: a [dict] has no such attribute. *)
Definition getattr {A : Type} (f : TimedResourceReport -> A) (x : child) : res A :=
  match x with
  | Report r => Ok (f r)
  | Dict _ => Raise AttributeError
  end.

(** ** Event *)

Module Event.

(* These numeric values are used to sort finish events before start events
   if the Event.time is identical *)
Definition START : Z := 1.
Definition FINISH : Z := -1.

Record t : Type := mk {
  time : option datetime;
  type : Z;
  report : child
}.

Definition start_event (report : child) : res t :=
  s <- getattr (fun r => start_time r) report ;;
  Ok (mk s START report).

Definition finish_event (report : child) : res t :=
  f <- getattr (fun r => finish_time r) report ;;
  Ok (mk f FINISH report).

(** The sort key of [_walk]: [(x.time, x.type)]. *)
Definition key (x : t) : option datetime * Z := (time x, type x).

(** [k1 < k2] on two keys, as tuples compare: the first components that
    are not equal decide, and [None] is not ordered against a
    [datetime]. *)
Definition key_lt (k1 k2 : option datetime * Z) : res bool :=
  match fst k1, fst k2 with
  | Some a, Some b => Ok (if a =? b then snd k1 <? snd k2 else a <? b)
  | None, None => Ok (snd k1 <? snd k2)
  | _, _ => Raise TypeError
  end.

End Event.

(** ** The builtin [sorted]

    [sorted(l, key=key)] is a stable sort that only asks [<] of two keys.
    It is modelled by a stable insertion sort: on keys that [<] orders the
    result of a stable sort is unique, and a sort of any kind has compared
    every two neighbours of its result, so it raises exactly when two keys
    of the list cannot be compared. *)
Section Sorted.

Context {A K : Type}.
Variable key : A -> K.
Variable lt : K -> K -> res bool.

Fixpoint insert (x : A) (l : list A) : res (list A) :=
  match l with
  | [] => Ok [x]
  | y :: l' =>
      b <- lt (key y) (key x) ;;
      if b then (r <- insert x l' ;; Ok (y :: r)) else Ok (x :: l)
  end.

Fixpoint sorted (l : list A) : res (list A) :=
  match l with
  | [] => Ok []
  | x :: l' => s <- sorted l' ;; insert x s
  end.

End Sorted.

Definition datetime_lt (a b : datetime) : res bool := Ok (a <? b).

(** ** The sweep processors *)

Module Processor.

(** The three processor classes; they differ in [count_unit]. *)
Inductive class : Type :=
| MaxParallelCountProcessor
| MaxParallelCPUsProcessor
| MaxParallelRAMProcessor.

Record t : Type := mk {
  cls : class;
  count : num;
  max : num
}.

(** [__init__] *)
Definition new (c : class) : t :=
  {| cls := c; count := PInt 0; max := PInt 0 |}.

Definition count_unit (self : t) (report : child) : res num :=
  match cls self with
  | MaxParallelCountProcessor => Ok (PInt 1)
  | MaxParallelCPUsProcessor => getattr cpus report
  | MaxParallelRAMProcessor => getattr ram_megabytes report
  end.

Definition process (self : t) (report : child) (event_type : Z) : res t :=
  c <- (if event_type =? Event.START then
          u <- count_unit self report ;; Num.add (count self) u
        else if event_type =? Event.FINISH then
          u <- count_unit self report ;; Num.sub (count self) u
        else Ok (count self)) ;;
  Ok {| cls := cls self; count := c; max := Num.max (max self) c |}.

Definition result (self : t) : num := max self.

End Processor.

(** [Event.process]: hand the report and the type to the processor. *)
Definition Event_process (self : Event.t) (processor : Processor.t)
    : res Processor.t :=
  Processor.process processor (Event.report self) (Event.type self).

(** ** TimelineReport *)

Record TimelineReport : Type := mkTimelineReport {
  children : list child;
  span : TimedReport
}.
Coercion span : TimelineReport >-> TimedReport.

(** [TimelineReport()] *)
Definition TimelineReport_new : TimelineReport :=
  {| children := []; span := {| start_time := None; finish_time := None |} |}.

(** A method of a timeline: it reads and writes the attributes of [self]
    and returns or raises.  An exception leaves the writes made before
    it. *)
Definition method (A : Type) : Type := TimelineReport -> res A * TimelineReport.

Definition ret {A : Type} (a : A) : method A := fun self => (Ok a, self).

Definition lift {A : Type} (m : res A) : method A := fun self => (m, self).

Definition seq {A B : Type} (m : method A) (k : A -> method B) : method B :=
  fun self =>
    match m self with
    | (Ok a, self') => k a self'
    | (Raise e, self') => (Raise e, self')
    end.

Notation "x <~ m ;; k" := (seq m (fun x => k))
  (at level 61, m at next level, right associativity).

Definition get_children : method (list child) :=
  fun self => (Ok (children self), self).

Definition set_children (l : list child) : method unit :=
  fun self => (Ok tt, {| children := l; span := span self |}).

Definition set_start_time (t : option datetime) : method unit :=
  fun self =>
    (Ok tt, {| children := children self;
               span := {| start_time := t; finish_time := finish_time self |} |}).

Definition set_finish_time (t : option datetime) : method unit :=
  fun self =>
    (Ok tt, {| children := children self;
               span := {| start_time := start_time self; finish_time := t |} |}).

(** The [datetime]s of a list of attribute values: [None] is false and is
    filtered out. *)
Fixpoint set_times (l : list (option datetime)) : list datetime :=
  match l with
  | [] => []
  | Some t :: l' => t :: set_times l'
  | None :: l' => set_times l'
  end.

(** [sorted(times)[0]] and [sorted(times)[-1]] *)
Definition sorted_first (times : list datetime) : res datetime :=
  s <- sorted (fun t => t) datetime_lt times ;;
  match s with
  | first :: _ => Ok first
  | [] => Raise IndexError
  end.

Definition sorted_last (times : list datetime) : res datetime :=
  s <- sorted (fun t => t) datetime_lt times ;;
  match rev s with
  | last :: _ => Ok last
  | [] => Raise IndexError
  end.

Definition _recalculate_times : method unit :=
  cs <~ get_children ;;
  starts <~ lift (mapM (getattr (fun r => start_time r)) cs) ;;
  let start_times := set_times starts in
  _ <~ match start_times with
       | [] => ret tt
       | _ :: _ =>
           first <~ lift (sorted_first start_times) ;;
           set_start_time (Some first)
       end ;;
  cs <~ get_children ;;
  finishes <~ lift (mapM (getattr (fun r => finish_time r)) cs) ;;
  let finish_times := set_times finishes in
  match finish_times with
  | [] => ret tt
  | _ :: _ =>
      last <~ lift (sorted_last finish_times) ;;
      set_finish_time (Some last)
  end.

Definition add_report (report : child) : method unit :=
  cs <~ get_children ;;
  _ <~ set_children (cs ++ [report]) ;;
  _recalculate_times.

Definition total_cpu_hours : method num :=
  cs <~ get_children ;;
  hours <~ lift (mapM (fun c => r <- getattr (fun r => r) c ;; cpu_hours r) cs) ;;
  lift (Num.sum hours).

Definition total_ram_megabyte_hours : method num :=
  cs <~ get_children ;;
  hours <~ lift (mapM (fun c => r <- getattr (fun r => r) c ;; ram_megabyte_hours r) cs) ;;
  lift (Num.sum hours).

Definition total_tasks : method Z :=
  cs <~ get_children ;;
  ret (Z.of_nat (List.length cs)).

(** The first loop of [_walk]: two events for each child. *)
Fixpoint events_of (cs : list child) : res (list Event.t) :=
  match cs with
  | [] => Ok []
  | report :: cs' =>
      s <- Event.start_event report ;;
      f <- Event.finish_event report ;;
      es <- events_of cs' ;;
      Ok (s :: f :: es)
  end.

(** The second loop of [_walk]: every event is processed in turn. *)
Fixpoint process_all (es : list Event.t) (processor : Processor.t)
    : res Processor.t :=
  match es with
  | [] => Ok processor
  | event :: es' =>
      p <- Event_process event processor ;;
      process_all es' p
  end.

(** [_walk(processor)]: the processor is updated in place, so the method
    gives back the processor it leaves together with the value it
    returns. *)
Definition _walk (processor : Processor.t) : method (num * Processor.t) :=
  cs <~ get_children ;;
  events <~ lift (events_of cs) ;;
  (* Sort the events by their time and type, putting finishes ahead of
     starts when simultaneous. *)
  ordered <~ lift (sorted Event.key Event.key_lt events) ;;
  p <~ lift (process_all ordered processor) ;;
  ret (Processor.result p, p).

Definition max_parallel (c : Processor.class) : method num :=
  let processor := Processor.new c in
  r <~ _walk processor ;;
  ret (Processor.result (snd r)).

Definition max_parallel_tasks : method num :=
  max_parallel Processor.MaxParallelCountProcessor.

Definition max_parallel_cpus : method num :=
  max_parallel Processor.MaxParallelCPUsProcessor.

Definition max_parallel_ram_megabytes : method num :=
  max_parallel Processor.MaxParallelRAMProcessor.

(** [vars(self)] of a timeline whose [children] entry is [cs]. *)
Definition timeline_vars (self : TimelineReport) (cs : list pyval)
    : list (string * pyval) :=
  [ ("children"%string, VList cs);
    ("start_time"%string, VTime (start_time self));
    ("finish_time"%string, VTime (finish_time self)) ].

(** [to_yaml()].  [vars(self)] is the attribute dictionary of [self]
    itself, so the assignment to [result['children']] rebinds
    [self.children].  [safe_dump] stands for [yaml.safe_dump]. *)
Definition to_yaml (safe_dump : pyval -> string) : method string :=
  cs <~ get_children ;;
  dicts <~ lift (mapM vars cs) ;;
  _ <~ set_children (map Dict dicts) ;;
  fun self => (Ok (safe_dump (VDict (timeline_vars self (map VDict dicts)))), self).

(** ** Reporter and write_report *)

(** What a call that takes a lock comes to: it returns or raises, or it
    blocks for ever on a lock that is held. *)
Inductive outcome (A : Type) : Type :=
| Returns (r : res A)
| Blocks.
Arguments Returns {A} r.
Arguments Blocks {A}.

Module Reporter.

(** The two class attributes: the shared timeline and the lock, a
    [threading.Lock], which is held or free and is not reentrant. *)
Record t : Type := mk {
  timeline_report : TimelineReport;
  lock : bool
}.

(** The class as the module defines it. *)
Definition initial : t := {| timeline_report := TimelineReport_new; lock := false |}.

(** [with Reporter(): body]: [__enter__] acquires the lock and blocks
    while it is held; [__exit__] releases it, also when the body
    raises. *)
Definition with_Reporter {A : Type} (body : t -> res A * t) (st : t) : outcome A * t :=
  if lock st then (Blocks, st)
  else
    let '(r, st') := body {| timeline_report := timeline_report st; lock := true |} in
    (Returns r, {| timeline_report := timeline_report st'; lock := false |}).

(** [add_report(report)]: the call goes to the shared timeline; the method
    itself does not touch the lock. *)
Definition add_report (report : child) (st : t) : res unit * t :=
  let '(r, tl) := add_report report (timeline_report st) in
  (r, {| timeline_report := tl; lock := lock st |}).

Definition clear : t -> outcome unit * t :=
  with_Reporter (fun st => (Ok tt, {| timeline_report := TimelineReport_new; lock := lock st |})).

(** [get_report()] returns the shared timeline itself, not a copy: a
    method called on what it returns runs on [timeline_report]. *)
Definition get_report : t -> outcome TimelineReport * t :=
  with_Reporter (fun st => (Ok (timeline_report st), st)).

End Reporter.

(** The files of the system, by name, and the state [write_report] runs
    in. *)
Record world : Type := mkWorld {
  reporter : Reporter.t;
  files : string -> option string
}.

Definition write_file (name content : string) (fs : string -> option string)
    : string -> option string :=
  fun n => if String.eqb n name then Some content else fs n.

(** [write_report(filename)].  [open(filename, 'w')], taken to succeed,
    leaves the file empty; then the argument of [file.write] is evaluated:
    [get_report()] and, on the timeline it returns, [to_yaml()]; then the
    text is written.  The [with] closes the file whatever happens. *)
Definition write_report (safe_dump : pyval -> string) (filename : string) (w : world)
    : outcome unit * world :=
  let fs := write_file filename EmptyString (files w) in
  match Reporter.get_report (reporter w) with
  | (Blocks, st) => (Blocks, {| reporter := st; files := fs |})
  | (Returns (Raise e), st) => (Returns (Raise e), {| reporter := st; files := fs |})
  | (Returns (Ok _), st) =>
      let '(r, tl) := to_yaml safe_dump (Reporter.timeline_report st) in
      let st' := {| Reporter.timeline_report := tl; Reporter.lock := Reporter.lock st |} in
      match r with
      | Ok text => (Returns (Ok tt), {| reporter := st'; files := write_file filename text fs |})
      | Raise e => (Returns (Raise e), {| reporter := st'; files := fs |})
      end
  end.

(** ** Predicates used by the statements *)

Definition fexp64 (e : Z) : Z := fexp Float.prec Float.emax e.

(** The float is a zero, a finite number or an infinity of sign [s]. *)
Inductive has_sign (s : bool) : spec_float -> Prop :=
| sign_zero : has_sign s (S754_zero s)
| sign_finite m e : has_sign s (S754_finite s m e)
| sign_infinity : has_sign s (S754_infinity s).

(** The float is a finite number or an infinity of sign [s], not a zero. *)
Inductive nonzero_sign (s : bool) : spec_float -> Prop :=
| nz_finite m e : nonzero_sign s (S754_finite s m e)
| nz_infinity : nonzero_sign s (S754_infinity s).

(** [m] is the least, respectively the greatest, element of [l]. *)
Definition is_min (m : Z) (l : list Z) : Prop := In m l /\ Forall (fun x => m <= x) l.
Definition is_max (m : Z) (l : list Z) : Prop := In m l /\ Forall (fun x => x <= m) l.

(** The report objects among the children. *)
Definition is_report (c : child) : bool :=
  match c with
  | Report _ => true
  | Dict _ => false
  end.

Fixpoint reports_of (cs : list child) : list TimedResourceReport :=
  match cs with
  | [] => []
  | Report r :: cs' => r :: reports_of cs'
  | Dict _ :: cs' => reports_of cs'
  end.

(** A report with both instants set. *)
Definition report_at (c m : num) (s f : datetime) : TimedResourceReport :=
  {| cpus := c; ram_megabytes := m;
     timed := {| start_time := Some s; finish_time := Some f |} |}.

(** A timeline that holds the children [cs]. *)
Definition timeline_of (cs : list child) (sp : TimedReport) : TimelineReport :=
  {| children := cs; span := sp |}.

(** The start instants, respectively the finish instants, that are set
    among the reports. *)
Definition starts_of (rs : list TimedResourceReport) : list datetime :=
  set_times (map (fun r : TimedResourceReport => start_time r) rs).
Definition finishes_of (rs : list TimedResourceReport) : list datetime :=
  set_times (map (fun r : TimedResourceReport => finish_time r) rs).

(** What [to_yaml] leaves in [children]: the attribute dictionary of each
    report. *)
Definition dicts_of (cs : list child) : list child :=
  map Dict (map report_vars (reports_of cs)).

(** The total of the hours [hours_of] gives for each report. *)
Definition total_of (hours_of : TimedResourceReport -> res num)
    (rs : list TimedResourceReport) : res num :=
  hs <- mapM hours_of rs ;; Num.sum hs.

(** The order of the sort key on events whose time is set: by time, and
    at the same time by type, FINISH ([-1]) before START ([1]). *)
Definition event_le (e1 e2 : Event.t) : Prop :=
  match Event.time e1, Event.time e2 with
  | Some a, Some b => a < b \/ (a = b /\ Event.type e1 <= Event.type e2)
  | _, _ => False
  end.

(** The time of the event is set. *)
Definition timed_event (e : Event.t) : Prop := Event.time e <> None.

(** The last character of a string. *)
Fixpoint lastc (l : list ascii) : option ascii :=
  match l with
  | [] => None
  | [c] => Some c
  | _ :: l' => lastc l'
  end.

(** The characters a string that [float] accepts can end with: a digit, the
    point, white space, or the last letter of [inf], [nan] or [infinity]. *)
Definition numeral_end (c : ascii) : bool :=
  Str.is_digit c || Ascii.eqb c "." || Str.is_space c ||
  Ascii.eqb (Str.lower c) "f" || Ascii.eqb (Str.lower c) "n" ||
  Ascii.eqb (Str.lower c) "y".

(** No suffix of the table ends with a character a numeral can end
    with. *)
Definition suffixes_apart (items : list (string * num)) : bool :=
  forallb (fun sf : string * num =>
             match lastc (list_ascii_of_string (fst sf)) with
             | Some c => negb (numeral_end c)
             | None => false
             end) items.

(** The error [parse] raises on [value]. *)
Definition unparseable (cls : ParserClass) (value : string) : res num :=
  Raise (ValueError_UnableToParse value (kind cls) (url cls)).

(** [value] ends with none of the suffixes of the table. *)
Definition ends_with_none (items : list (string * num)) (value : string) : bool :=
  forallb (fun sf => negb (Str.endswith value (fst sf))) items.

(** ** Predicates on the sweep *)

(** The unit a processor of class [c] counts for a report, when it is an
    int. *)
Definition int_unit (c : Processor.class) (r : TimedResourceReport) : option Z :=
  match c with
  | Processor.MaxParallelCountProcessor => Some 1
  | Processor.MaxParallelCPUsProcessor =>
      match cpus r with PInt z => Some z | PFloat _ => None end
  | Processor.MaxParallelRAMProcessor =>
      match ram_megabytes r with PInt z => Some z | PFloat _ => None end
  end.

Definition weight (c : Processor.class) (r : TimedResourceReport) : Z :=
  match int_unit c r with
  | Some z => z
  | None => 0
  end.

(** A report the sweep of class [c] counts in whole numbers: both instants
    are set, the start is not after the finish, and the unit is an int
    that is not negative. *)
Definition whole_report (c : Processor.class) (r : TimedResourceReport) : bool :=
  match start_time r, finish_time r, int_unit c r with
  | Some s, Some f, Some w => (s <=? f) && (0 <=? w)
  | _, _, _ => false
  end.

Definition whole_child (c : Processor.class) (x : child) : bool :=
  match x with
  | Report r => whole_report c r
  | Dict _ => false
  end.

(** The report runs at the instant [t]: it has started and has not
    finished. *)
Definition runs_at (t : datetime) (r : TimedResourceReport) : bool :=
  match start_time r, finish_time r with
  | Some s, Some f => (s <=? t) && (t <? f)
  | _, _ => false
  end.

(** The units of the reports that run at [t], added up. *)
Fixpoint load (c : Processor.class) (t : datetime) (rs : list TimedResourceReport) : Z :=
  match rs with
  | [] => 0
  | r :: rs' => (if runs_at t r then weight c r else 0) + load c t rs'
  end.

(** What an event adds to the count: the unit of its report, with the sign
    of its type. *)
Definition signed (c : Processor.class) (e : Event.t) : Z :=
  match Event.report e with
  | Report r => Event.type e * weight c r
  | Dict _ => 0
  end.

(** An event of a [whole_report], of type START or FINISH, at a set
    time. *)
Definition whole_event (c : Processor.class) (e : Event.t) : Prop :=
  timed_event e /\
  (Event.type e = Event.START \/ Event.type e = Event.FINISH) /\
  whole_child c (Event.report e) = true.

(** The running maximum of a count that starts at [count], over the steps
    [ds], from the maximum [top]. *)
Fixpoint peak (ds : list Z) (count top : Z) : Z :=
  match ds with
  | [] => top
  | d :: ds' => peak ds' (count + d) (Z.max top (count + d))
  end.

Definition total (ds : list Z) : Z := fold_right Z.add 0 ds.

(** The steps of the events at or before [t], added up. *)
Fixpoint total_until (c : Processor.class) (t : datetime) (es : list Event.t) : Z :=
  match es with
  | [] => 0
  | e :: es' =>
      (match Event.time e with
       | Some u => if u <=? t then signed c e else 0
       | None => 0
       end) + total_until c t es'
  end.

(** The events of the report objects among [cs], in the order [_walk]
    builds them. *)
Fixpoint report_events (cs : list child) : list Event.t :=
  match cs with
  | [] => []
  | Report r :: cs' =>
      Event.mk (start_time r) Event.START (Report r)
        :: Event.mk (finish_time r) Event.FINISH (Report r)
        :: report_events cs'
  | Dict _ :: cs' => report_events cs'
  end.

(** The time of the event is set, as a boolean. *)
Definition is_timed (e : Event.t) : bool :=
  match Event.time e with
  | Some _ => true
  | None => false
  end.

(** Some instant of the report is set, respectively not set. *)
Definition some_set (r : TimedResourceReport) : bool :=
  match start_time r, finish_time r with
  | None, None => false
  | _, _ => true
  end.

Definition some_unset (r : TimedResourceReport) : bool :=
  match start_time r, finish_time r with
  | Some _, Some _ => false
  | _, _ => true
  end.

(** Successive calls [add_report(r)] for the reports of [rs], in order;
    a call that raises ends the run. *)
Fixpoint add_reports (rs : list child) : method unit :=
  match rs with
  | [] => ret tt
  | r :: rs' => _ <~ add_report r ;; add_reports rs'
  end.

(** The least of the instants [l] when there is one, [None] otherwise;
    likewise the greatest. *)
Definition least_of (t : option datetime) (l : list datetime) : Prop :=
  match l with
  | [] => t = None
  | _ :: _ => exists m, t = Some m /\ is_min m l
  end.

Definition greatest_of (t : option datetime) (l : list datetime) : Prop :=
  match l with
  | [] => t = None
  | _ :: _ => exists m, t = Some m /\ is_max m l
  end.

(** The span of the timeline is the one its children give it. *)
Definition span_derived (self : TimelineReport) : Prop :=
  least_of (start_time self) (starts_of (reports_of (children self))) /\
  greatest_of (finish_time self) (finishes_of (reports_of (children self))).

(** No suffix of the table is the end of another one. *)
Fixpoint suffix_free (items : list (string * num)) : bool :=
  match items with
  | [] => true
  | sf :: rest =>
      forallb (fun sf' : string * num =>
                 negb (Str.endswith (fst sf) (fst sf')) &&
                 negb (Str.endswith (fst sf') (fst sf))) rest
      && suffix_free rest
  end.

(** The character [a] does not occur in [s]. *)
Fixpoint absent (a : ascii) (s : string) : bool :=
  match s with
  | EmptyString => true
  | String c s' => negb (Ascii.eqb a c) && absent a s'
  end.

(** The first character of [suffix] does not occur in [s]. *)
Definition clear_of (suffix s : string) : bool :=
  match suffix with
  | EmptyString => false
  | String a _ => absent a s
  end.

(** A child the sweep of class [c] counts in floats: a report with both
    instants set whose unit is a float, or any such report when the unit
    is the constant [1]. *)
Definition float_child (c : Processor.class) (x : child) : bool :=
  match x with
  | Report r =>
      match start_time r, finish_time r with
      | Some _, Some _ =>
          match c with
          | Processor.MaxParallelCountProcessor => true
          | Processor.MaxParallelCPUsProcessor =>
              match cpus r with PFloat _ => true | PInt _ => false end
          | Processor.MaxParallelRAMProcessor =>
              match ram_megabytes r with PFloat _ => true | PInt _ => false end
          end
      | _, _ => false
      end
  | Dict _ => false
  end.

(** A count the sweep can reach from [0]: an int, as long as only ints
    were added, or a float. *)
Definition is_float (n : num) : bool :=
  match n with
  | PFloat _ => true
  | PInt _ => false
  end.

(** An event of a [float_child], of type START or FINISH, at a set
    time. *)
Definition float_event (c : Processor.class) (e : Event.t) : Prop :=
  timed_event e /\
  (Event.type e = Event.START \/ Event.type e = Event.FINISH) /\
  float_child c (Event.report e) = true.

(** The count and the maximum a sweep in floats can hold: the int [0] it
    starts from, any int when the unit is the constant [1], or a float. *)
Definition reachable (c : Processor.class) (n : num) : Prop :=
  match c with
  | Processor.MaxParallelCountProcessor => is_float n = false
  | _ => n = PInt 0 \/ is_float n = true
  end.

(** The calls a user of the [Reporter] makes: [Reporter.clear()],
    [Reporter.get_report()], and [with Reporter() as reporter:
    reporter.add_report(report)]. *)
Inductive call : Type :=
| Clear
| GetReport
| Add (report : child).

(** One call: whether it came back, and the state it leaves. *)
Definition run_call (o : call) (st : Reporter.t) : bool * Reporter.t :=
  match o with
  | Clear =>
      match Reporter.clear st with
      | (Returns _, st') => (true, st')
      | (Blocks, st') => (false, st')
      end
  | GetReport =>
      match Reporter.get_report st with
      | (Returns _, st') => (true, st')
      | (Blocks, st') => (false, st')
      end
  | Add report =>
      match Reporter.with_Reporter (Reporter.add_report report) st with
      | (Returns _, st') => (true, st')
      | (Blocks, st') => (false, st')
      end
  end.

(** The calls in turn, an exception being caught by the caller; a call
    that blocks ends the run. *)
Fixpoint run_calls (os : list call) (st : Reporter.t) : bool * Reporter.t :=
  match os with
  | [] => (true, st)
  | o :: os' =>
      match run_call o st with
      | (true, st') => run_calls os' st'
      | (false, st') => (false, st')
      end
  end.

(** The reports added since the last [Clear], on top of [cs]. *)
Fixpoint added (os : list call) (cs : list child) : list child :=
  match os with
  | [] => cs
  | Clear :: os' => added os' []
  | GetReport :: os' => added os' cs
  | Add report :: os' => added os' (cs ++ [report])
  end.

(** The float is not below zero: a zero, a positive number or the positive
    infinity, all of sign [+], or a NaN, which compares below nothing. *)
Definition not_negative (x : spec_float) : bool :=
  match x with
  | S754_zero s | S754_infinity s | S754_finite s _ _ => negb s
  | S754_nan => true
  end.

(** A report whose instants are set, the start not after the finish, and
    whose CPUs and megabytes are floats that are not below zero. *)
Definition sound_report (r : TimedResourceReport) : bool :=
  match start_time r, finish_time r, cpus r, ram_megabytes r with
  | Some s, Some f, PFloat c, PFloat m => (s <=? f) && not_negative c && not_negative m
  | _, _, _, _ => false
  end.

Definition sound_child (x : child) : bool :=
  match x with
  | Report r => sound_report r
  | Dict _ => false
  end.

(** A total that is not below zero: the int [0] of an empty sum, or a
    float that is not below zero. *)
Definition sound_total (n : num) : Prop :=
  n = PInt 0 \/ exists x, n = PFloat x /\ not_negative x = true.

(** The string is empty or ends with a character no numeral ends
    with. *)
Definition ends_oddly (value : string) : bool :=
  match lastc (list_ascii_of_string value) with
  | None => true
  | Some c => negb (numeral_end c)
  end.

(** ** Facts on binary64 rounding *)

Section FloatFacts.

Lemma digits2_pos_bounds (p : positive) :
  2 ^ (Z.pos (digits2_pos p) - 1) <= Z.pos p < 2 ^ Z.pos (digits2_pos p).
Proof.
  induction p as [p IH | p IH |]; cbn [digits2_pos].
  - rewrite Pos2Z.inj_succ.
    replace (Z.succ (Z.pos (digits2_pos p)) - 1) with (Z.succ (Z.pos (digits2_pos p) - 1)) by lia.
    rewrite !Z.pow_succ_r by lia. lia.
  - rewrite Pos2Z.inj_succ.
    replace (Z.succ (Z.pos (digits2_pos p)) - 1) with (Z.succ (Z.pos (digits2_pos p) - 1)) by lia.
    rewrite !Z.pow_succ_r by lia. lia.
  - cbn. lia.
Qed.

Lemma shr_1_m (mrs : shr_record) :
  0 <= shr_m mrs -> shr_m (shr_1 mrs) = shr_m mrs / 2.
Proof.
  destruct mrs as [m r s]; cbn [shr_m]; intros Hm.
  destruct m as [| [p | p |] | p]; cbn [shr_1 shr_m]; try lia; try reflexivity.
  - apply Z.div_unique with (r := 1); lia.
  - apply Z.div_unique with (r := 0); lia.
Qed.

Lemma iter_shr_1_m (p : positive) : forall mrs : shr_record,
  0 <= shr_m mrs ->
  shr_m (iter_pos shr_1 p mrs) = shr_m mrs / 2 ^ Z.pos p.
Proof.
  induction p as [p IH | p IH |]; intros mrs Hm; cbn [iter_pos].
  - assert (H1 : 0 <= shr_m (shr_1 mrs)).
    { rewrite shr_1_m by assumption. apply Z.div_pos; lia. }
    assert (H2 : 0 <= shr_m (iter_pos shr_1 p (shr_1 mrs))).
    { rewrite IH by assumption. apply Z.div_pos; lia. }
    rewrite IH by assumption. rewrite IH by assumption.
    rewrite shr_1_m by assumption.
    rewrite !Z.div_div by lia.
    f_equal. rewrite <- Z.pow_add_r by lia.
    rewrite <- Z.pow_succ_r by lia. f_equal. lia.
  - assert (H2 : 0 <= shr_m (iter_pos shr_1 p mrs)).
    { rewrite IH by assumption. apply Z.div_pos; lia. }
    rewrite IH by assumption. rewrite IH by assumption.
    rewrite !Z.div_div by lia.
    f_equal. rewrite <- Z.pow_add_r by lia. f_equal. lia.
  - rewrite shr_1_m by assumption. reflexivity.
Qed.


Lemma fexp64_eq (e : Z) : fexp64 e = Z.max (e - 53) (-1074).
Proof. reflexivity. Qed.

Lemma shr_record_of_loc_m (m : Z) (l : location) :
  shr_m (shr_record_of_loc m l) = m.
Proof. destruct l as [| []]; reflexivity. Qed.

(** Shifting to the exponent of the format keeps a mantissa that is not
    negative that way. *)
Lemma shr_fexp_nonneg (m e : Z) (l : location) :
  0 <= m ->
  0 <= shr_m (fst (shr_fexp Float.prec Float.emax m e l)).
Proof.
  intros Hm. unfold shr_fexp, shr.
  destruct (fexp Float.prec Float.emax (Zdigits2 m + e) - e) as [| p | p];
    cbn [fst]; rewrite ?iter_shr_1_m; rewrite ?shr_record_of_loc_m; try lia.
  apply Z.div_pos; lia.
Qed.

(** Above the subnormal range it also keeps a positive mantissa
    positive, and the exponent does not decrease. *)
Lemma shr_fexp_pos (m e : Z) (l : location) :
  0 < m -> -1021 <= e ->
  0 < shr_m (fst (shr_fexp Float.prec Float.emax m e l)) /\
  e <= snd (shr_fexp Float.prec Float.emax m e l).
Proof.
  intros Hm He. unfold shr_fexp, shr.
  change (fexp Float.prec Float.emax) with fexp64. rewrite fexp64_eq.
  destruct m as [| q | q]; try lia. cbn [Zdigits2].
  pose proof (digits2_pos_bounds q) as [Hlo Hhi].
  set (d := Z.pos (digits2_pos q)) in *.
  assert (Hd : 1 <= d) by (unfold d; lia).
  replace (Z.max (d + e - 53) (-1074) - e) with (d - 53) by lia.
  destruct (d - 53) as [| p | p] eqn:Hp; cbn [fst snd];
    rewrite ?shr_record_of_loc_m; try lia.
  rewrite iter_shr_1_m by (rewrite shr_record_of_loc_m; lia).
  rewrite shr_record_of_loc_m. split; [| lia].
  apply Z.div_str_pos. split; [lia |].
  apply Z.le_trans with (2 ^ (d - 1)); [| exact Hlo].
  apply Z.pow_le_mono_r; lia.
Qed.

Lemma round_nearest_even_ge (m : Z) (l : location) :
  m <= round_nearest_even m l.
Proof.
  destruct l as [| []]; cbn [round_nearest_even]; try lia.
  destruct (Z.even m); lia.
Qed.

(** The sign of a rounded number is the sign it was given. *)
Lemma binary_round_aux_sign (s : bool) (m e : Z) (l : location) :
  0 <= m -> has_sign s (binary_round_aux Float.prec Float.emax s m e l).
Proof.
  intros Hm. unfold binary_round_aux.
  pose proof (shr_fexp_nonneg m e l Hm) as H1.
  destruct (shr_fexp Float.prec Float.emax m e l) as [mrs1 e1]. cbn [fst] in H1.
  pose proof (round_nearest_even_ge (shr_m mrs1) (loc_of_shr_record mrs1)) as H2.
  pose proof (shr_fexp_nonneg (round_nearest_even (shr_m mrs1) (loc_of_shr_record mrs1))
                e1 loc_Exact ltac:(lia)) as H3.
  destruct (shr_fexp Float.prec Float.emax _ e1 loc_Exact) as [mrs2 e2]. cbn [fst] in H3.
  destruct (shr_m mrs2) as [| q | q]; try lia.
  - constructor.
  - destruct (e2 <=? Float.emax - Float.prec); constructor.
Qed.

Lemma binary_round_aux_nonzero (s : bool) (m e : Z) (l : location) :
  0 < m -> -1021 <= e ->
  nonzero_sign s (binary_round_aux Float.prec Float.emax s m e l).
Proof.
  intros Hm He. unfold binary_round_aux.
  pose proof (shr_fexp_pos m e l Hm He) as [H1 H1e].
  destruct (shr_fexp Float.prec Float.emax m e l) as [mrs1 e1]. cbn [fst snd] in H1, H1e.
  pose proof (round_nearest_even_ge (shr_m mrs1) (loc_of_shr_record mrs1)) as H2.
  pose proof (shr_fexp_pos (round_nearest_even (shr_m mrs1) (loc_of_shr_record mrs1))
                e1 loc_Exact ltac:(lia) ltac:(lia)) as [H3 _].
  destruct (shr_fexp Float.prec Float.emax _ e1 loc_Exact) as [mrs2 e2]. cbn [fst] in H3.
  destruct (shr_m mrs2) as [| q | q]; try lia.
  destruct (e2 <=? Float.emax - Float.prec); constructor.
Qed.


Lemma div_eucl_fst (a b : Z) : fst (Z.div_eucl a b) = a / b.
Proof. unfold Z.div. destruct (Z.div_eucl a b); reflexivity. Qed.

(** A quotient of an integer that is not negative by a positive one
    rounds to a float that is not negative, and never to a NaN. *)
Lemma of_quotient_nonneg (a b : Z) :
  0 <= a -> 0 < b -> has_sign false (Float.of_quotient a b).
Proof.
  intros Ha Hb. unfold Float.of_quotient.
  replace (a <? 0) with false by (symmetry; apply Z.ltb_ge; lia).
  replace (b <? 0) with false by (symmetry; apply Z.ltb_ge; lia).
  cbn [xorb]. rewrite !Z.abs_eq by lia.
  unfold SFdiv_core_binary.
  set (e' := Z.min _ _). set (m' := match 0 - 0 - e' with 0 => a | Z.pos _ => _ | Z.neg _ => 0 end).
  assert (Hm' : 0 <= m').
  { unfold m'. destruct (0 - 0 - e'); try lia. apply Z.shiftl_nonneg. exact Ha. }
  pose proof (div_eucl_fst m' b) as Hq.
  destruct (Z.div_eucl m' b) as [q r]. cbn [fst] in Hq.
  apply binary_round_aux_sign. rewrite Hq. apply Z.div_pos; lia.
Qed.

(** The seconds of a negative [timedelta] are a negative float: the
    quotient never rounds to zero. *)
Lemma total_seconds_negative (d : Z) :
  d < 0 -> nonzero_sign true (Timedelta.total_seconds d).
Proof.
  intros Hd. unfold Timedelta.total_seconds, Float.of_quotient.
  replace (d <? 0) with true by (symmetry; apply Z.ltb_lt; lia).
  change (10 ^ 6) with 1000000. change (1000000 <? 0) with false.
  cbn [xorb]. change (Z.abs 1000000) with 1000000.
  destruct d as [| p | p]; try lia. cbn [Z.abs].
  unfold SFdiv_core_binary. cbn [Zdigits2].
  change (Z.pos (digits2_pos 1000000)) with 20.
  change (fexp Float.prec Float.emax) with fexp64. rewrite fexp64_eq.
  pose proof (digits2_pos_bounds p) as [Hlo Hhi].
  set (d1 := Z.pos (digits2_pos p)) in *.
  assert (Hd1 : 1 <= d1) by (unfold d1; lia).
  set (e' := Z.min (Z.max (d1 + 0 - (20 + 0) - 53) (-1074)) (0 - 0)).
  assert (He' : -72 <= e' <= 0) by (unfold e'; lia).
  set (m' := match 0 - 0 - e' with 0 => Z.pos p | Z.pos _ => _ | Z.neg _ => 0 end).
  assert (Hm' : 2 ^ 72 <= m').
  { assert (Hs : m' = Z.pos p * 2 ^ (- e')).
    { unfold m'. replace (0 - 0 - e') with (- e') by lia.
      destruct (- e') as [| s | s] eqn:Hs; try lia.
      rewrite Z.shiftl_mul_pow2 by lia. reflexivity. }
    rewrite Hs.
    destruct (Z.le_gt_cases 73 d1) as [Hbig | Hsmall].
    - replace e' with 0 by (unfold e'; lia). cbn [Z.opp]. rewrite Z.pow_0_r, Z.mul_1_r.
      apply Z.le_trans with (2 ^ (d1 - 1)); [| exact Hlo].
      apply Z.pow_le_mono_r; lia.
    - replace e' with (d1 - 73) by (unfold e'; lia).
      replace 72 with ((d1 - 1) + - (d1 - 73)) by lia.
      rewrite Z.pow_add_r by lia.
      apply Z.mul_le_mono_nonneg_r; [apply Z.pow_nonneg; lia | exact Hlo]. }
  pose proof (div_eucl_fst m' 1000000) as Hq.
  destruct (Z.div_eucl m' 1000000) as [q r]. cbn [fst] in Hq.
  apply binary_round_aux_nonzero; [| lia].
  rewrite Hq. apply Z.div_str_pos. split; [lia |].
  apply Z.le_trans with (2 ^ 72); [| exact Hm']. vm_compute. discriminate.
Qed.

Lemma total_seconds_nonneg (d : Z) :
  0 <= d -> has_sign false (Timedelta.total_seconds d).
Proof.
  intros Hd. unfold Timedelta.total_seconds. apply of_quotient_nonneg; [exact Hd |].
  vm_compute. reflexivity.
Qed.

(** [x < 0] for a float [x] and the int [0]. *)
Lemma ltb_zero_has_sign (x : spec_float) :
  has_sign false x -> Num.ltb (PFloat x) (PInt 0) = false.
Proof.
  intros [| m e |]; try reflexivity.
  unfold Num.ltb, Num.compare, Float.compare_Z. cbn [option_map].
  destruct (Z.leb_spec 0 e) as [He | He]; [| reflexivity].
  pose proof (Z.pow_pos_nonneg 2 e ltac:(lia) He) as Hp.
  replace (0 ?= Z.pos m * 2 ^ e) with Lt; [reflexivity |].
  symmetry. apply Z.compare_lt_iff. nia.
Qed.

Lemma ltb_zero_nonzero_sign (x : spec_float) :
  nonzero_sign true x -> Num.ltb (PFloat x) (PInt 0) = true.
Proof.
  intros [m e |]; [| reflexivity].
  unfold Num.ltb, Num.compare, Float.compare_Z. cbn [option_map].
  destruct (Z.leb_spec 0 e) as [He | He]; [| reflexivity].
  pose proof (Z.pow_pos_nonneg 2 e ltac:(lia) He) as Hp.
  replace (0 ?= Z.neg m * 2 ^ e) with Gt; [reflexivity |].
  symmetry. apply Z.compare_gt_iff. nia.
Qed.

End FloatFacts.

(** ** TimedReport.elapsed_seconds *)

(** C4, as amended: for a report whose two instants are set,
    [elapsed_seconds] returns the seconds from start to finish, a float
    that is at least [0], when the start is not after the finish, and
    raises the [ValueError] on a negative time exactly when the finish is
    before the start; for a report whose start or finish is not set the
    subtraction raises a [TypeError]. *)
Theorem elapsed_seconds_spec :
  (forall s f : datetime,
     let self := {| start_time := Some s; finish_time := Some f |} in
     (s <= f ->
        elapsed_seconds self = Ok (PFloat (Timedelta.total_seconds (f - s))) /\
        Num.leb (PInt 0) (PFloat (Timedelta.total_seconds (f - s))) = true) /\
     (f < s ->
        elapsed_seconds self
          = Raise (ValueError_NegativeTime (Timedelta.total_seconds (f - s))))) /\
  (forall self : TimedReport,
     start_time self = None \/ finish_time self = None ->
     elapsed_seconds self = Raise TypeError).
Proof.
  split.
  - intros s f. cbv zeta. unfold elapsed_seconds. cbn [start_time finish_time]. split.
    + intros Hsf.
      pose proof (total_seconds_nonneg (f - s) ltac:(lia)) as Hsign.
      rewrite (ltb_zero_has_sign _ Hsign). split; [reflexivity |].
      destruct Hsign as [| m e |]; try reflexivity.
      unfold Num.leb, Num.compare, Float.compare_Z.
      destruct (Z.leb_spec 0 e) as [He | He]; [| reflexivity].
      pose proof (Z.pow_pos_nonneg 2 e ltac:(lia) He) as Hp.
      replace (0 ?= Z.pos m * 2 ^ e) with Lt; [reflexivity |].
      symmetry. apply Z.compare_lt_iff. nia.
    + intros Hfs.
      pose proof (total_seconds_negative (f - s) ltac:(lia)) as Hsign.
      rewrite (ltb_zero_nonzero_sign _ Hsign). reflexivity.
  - intros [[s |] [f |]] [H | H]; try discriminate H; reflexivity.
Qed.

Lemma elapsed_seconds_spec_witness :
  (0 <= 2500000 /\
   elapsed_seconds {| start_time := Some 0; finish_time := Some 2500000 |}
     = Ok (PFloat (Float.of_decimal 25 (-1)))) /\
  (3 < 9 /\
   elapsed_seconds {| start_time := Some 9; finish_time := Some 3 |}
     = Raise (ValueError_NegativeTime (Float.of_decimal (-6) (-6)))) /\
  elapsed_seconds {| start_time := Some 9; finish_time := None |} = Raise TypeError.
Proof.
  split; [| split].
  - split; [lia |].
    exact (proj1 (proj1 (proj1 elapsed_seconds_spec 0 2500000) ltac:(lia))).
  - split; [lia |].
    exact (proj2 (proj1 elapsed_seconds_spec 9 3) ltac:(lia)).
  - exact (proj2 elapsed_seconds_spec
             {| start_time := Some 9; finish_time := None |} (or_intror eq_refl)).
Defined.

(** C4, the claim as written fails: on a report as the constructor leaves
    it, with no start and no finish, no finish precedes a start and
    [elapsed_seconds] fails all the same, with a [TypeError]. *)
Lemma elapsed_seconds_unset_fails :
  elapsed_seconds {| start_time := None; finish_time := None |} = Raise TypeError /\
  forall x, elapsed_seconds {| start_time := None; finish_time := None |} <> Ok x.
Proof. split; [reflexivity | discriminate]. Qed.

(** ** The resource parsers *)

Lemma parse_items_no_suffix (items : list (string * num)) (value : string) :
  ends_with_none items value = true ->
  parse_items items value = float_of_str value.
Proof.
  induction items as [| [suffix factor] items IH];
    cbn [parse_items ends_with_none forallb fst]; [reflexivity |].
  intros H. apply andb_prop in H as [Hs Hrest].
  apply negb_true_iff in Hs. rewrite Hs. exact (IH Hrest).
Qed.

Lemma parse_items_first_suffix (pre post : list (string * num))
    (suffix : string) (factor : num) (value : string) :
  ends_with_none pre value = true ->
  Str.endswith value suffix = true ->
  parse_items (pre ++ (suffix, factor) :: post) value =
  (x <- float_of_str (Str.remove value suffix) ;; Num.mul x factor).
Proof.
  intros Hpre Hend.
  induction pre as [| [s0 f0] pre IH];
    cbn [app parse_items ends_with_none forallb fst] in *.
  - rewrite Hend. reflexivity.
  - apply andb_prop in Hpre as [Hs Hrest].
    apply negb_true_iff in Hs. rewrite Hs. exact (IH Hrest).
Qed.

Lemma lastc_cons (c : ascii) (l : list ascii) :
  l <> [] -> lastc (c :: l) = lastc l.
Proof. destruct l; [contradiction | reflexivity]. Qed.

Lemma lastc_app (l1 l2 : list ascii) :
  l2 <> [] -> lastc (l1 ++ l2) = lastc l2.
Proof.
  intros H. induction l1 as [| c l1 IH]; [reflexivity |].
  cbn [app]. rewrite lastc_cons; [exact IH |].
  destruct l1; [exact H | discriminate].
Qed.

Lemma lastc_snoc (l : list ascii) (c : ascii) : lastc (l ++ [c]) = Some c.
Proof. rewrite lastc_app by discriminate. reflexivity. Qed.

Lemma lastc_rev (l : list ascii) : lastc l = hd_error (rev l).
Proof.
  destruct (rev l) as [| c r] eqn:Hrev;
    apply (f_equal (@rev _)) in Hrev; rewrite rev_involutive in Hrev; subst l.
  - reflexivity.
  - cbn [rev hd_error]. apply lastc_snoc.
Qed.

Lemma drop_underscores_last (l0 : list ascii) : forall prev l,
  Str.drop_underscores prev l0 = Some l ->
  (l0 = [] -> l = []) /\ (l0 <> [] -> l <> [] /\ lastc l = lastc l0).
Proof.
  induction l0 as [| c l0 IH]; intros prev l; cbn [Str.drop_underscores].
  - destruct (Ascii.eqb prev "_"); [discriminate |].
    intros [= <-]. split; [reflexivity | contradiction].
  - intros H. split; [discriminate |]. intros _.
    destruct (Ascii.eqb_spec c "_") as [-> | Hc].
    + destruct (Str.is_digit prev); [| discriminate H].
      destruct l0 as [| d l0'].
      * cbn in H. discriminate H.
      * destruct (IH _ _ H) as [_ Hne]. destruct (Hne ltac:(discriminate)) as [Hl Hlast].
        split; [exact Hl |]. rewrite Hlast. symmetry. apply lastc_cons. discriminate.
    + destruct (Ascii.eqb prev "_" && negb (Str.is_digit c)); [discriminate H |].
      destruct (Str.drop_underscores c l0) as [l' |] eqn:Hdrop; [| discriminate H].
      cbn in H. injection H as <-. split; [discriminate |].
      destruct (IH _ _ Hdrop) as [Hnil Hne].
      destruct l0 as [| d l0'].
      * rewrite (Hnil eq_refl). reflexivity.
      * destruct (Hne ltac:(discriminate)) as [Hl Hlast].
        rewrite !lastc_cons by (assumption || discriminate). exact Hlast.
Qed.

Lemma lstrip_head (l : list ascii) (c : ascii) (r : list ascii) :
  Str.lstrip l = c :: r -> Str.is_space c = false.
Proof.
  induction l as [| d l IH]; cbn [Str.lstrip]; [discriminate |].
  destruct (Str.is_space d) eqn:Hd; [exact IH |].
  intros [= <- _]. exact Hd.
Qed.

Lemma lstrip_last (l : list ascii) (c : ascii) :
  lastc l = Some c -> Str.is_space c = false -> lastc (Str.lstrip l) = Some c.
Proof.
  intros Hlast Hc. induction l as [| d l IH]; [discriminate Hlast |].
  cbn [Str.lstrip]. destruct (Str.is_space d) eqn:Hd; [| exact Hlast].
  destruct l as [| e l'].
  - cbn in Hlast. injection Hlast as ->. congruence.
  - apply IH. rewrite lastc_cons in Hlast by discriminate. exact Hlast.
Qed.

Lemma strip_last (l : list ascii) (c : ascii) :
  lastc l = Some c -> Str.is_space c = false -> lastc (Str.strip l) = Some c.
Proof.
  intros Hlast Hc. unfold Str.strip. rewrite lastc_rev, rev_involutive.
  pose proof (lstrip_last l c Hlast Hc) as H. rewrite lastc_rev in H.
  destruct (rev (Str.lstrip l)) as [| d r]; [discriminate H |].
  cbn [hd_error] in H. injection H as ->.
  cbn [Str.lstrip]. rewrite Hc. reflexivity.
Qed.

Lemma take_digits_split (l : list ascii) : forall acc count a n r,
  Str.take_digits l acc count = (a, n, r) ->
  exists ds, l = ds ++ r /\ Forall (fun c => Str.is_digit c = true) ds /\
             n = count + Z.of_nat (List.length ds).
Proof.
  induction l as [| c l IH]; intros acc count a n r; cbn [Str.take_digits].
  - intros [= <- <- <-]. exists []. repeat split; [constructor | cbn; lia].
  - destruct (Str.is_digit c) eqn:Hc.
    + intros H. destruct (IH _ _ _ _ _ H) as (ds & -> & Hds & ->).
      exists (c :: ds). split; [reflexivity |]. split; [constructor; assumption |].
      cbn [List.length]. lia.
    + intros [= <- <- <-]. exists []. repeat split; [constructor | cbn; lia].
Qed.

Lemma numeral_end_digit (c : ascii) : Str.is_digit c = true -> numeral_end c = true.
Proof. intros H. unfold numeral_end. rewrite H. reflexivity. Qed.

(** A run of digits that is not empty, before nothing, ends with a digit. *)
Lemma lastc_digits (pre ds : list ascii) :
  Forall (fun c => Str.is_digit c = true) ds -> ds <> [] ->
  exists c, lastc (pre ++ ds) = Some c /\ numeral_end c = true.
Proof.
  intros Hds Hne.
  destruct (rev ds) as [| c r] eqn:Hrev;
    apply (f_equal (@rev _)) in Hrev; rewrite rev_involutive in Hrev; subst ds.
  - contradiction.
  - cbn [rev] in *. exists c. rewrite app_assoc, lastc_snoc. split; [reflexivity |].
    apply numeral_end_digit. rewrite Forall_forall in Hds. apply Hds.
    apply in_or_app. right. left. reflexivity.
Qed.

Lemma length_pos_nonnil {A : Type} (l : list A) : 0 < Z.of_nat (List.length l) -> l <> [].
Proof. destruct l; cbn; [lia | discriminate]. Qed.

Lemma take_sign_suffix (l r : list ascii) (neg : bool) :
  Str.take_sign l = (neg, r) -> exists p, l = p ++ r.
Proof.
  unfold Str.take_sign. destruct l as [| c l']; [intros [= _ <-]; exists []; reflexivity |].
  destruct (Ascii.eqb c "-"); [intros [= _ <-]; exists [c]; reflexivity |].
  destruct (Ascii.eqb c "+"); [intros [= _ <-]; exists [c]; reflexivity |].
  intros [= _ <-]. exists []. reflexivity.
Qed.

Lemma parse_exponent_last (l : list ascii) (x : Z) (pre : list ascii) :
  Str.parse_exponent l = Some x ->
  exists c, lastc (pre ++ l) = Some c /\ numeral_end c = true.
Proof.
  unfold Str.parse_exponent.
  destruct (Str.take_sign l) as [neg r] eqn:Hsign.
  destruct (Str.take_digits r 0 0) as [[v nx] rest] eqn:Hdigits.
  destruct rest; [| discriminate].
  destruct (Z.eqb_spec nx 0) as [| Hnx]; [discriminate |]. intros _.
  destruct (take_sign_suffix _ _ _ Hsign) as (p & ->).
  destruct (take_digits_split _ _ _ _ _ _ Hdigits) as (ds & -> & Hds & ->).
  rewrite app_nil_r, app_assoc.
  apply lastc_digits; [exact Hds |]. apply length_pos_nonnil. lia.
Qed.

Lemma parse_decimal_last (l : list ascii) (m e : Z) :
  Str.parse_decimal l = Some (m, e) ->
  exists c, lastc l = Some c /\ numeral_end c = true.
Proof.
  unfold Str.parse_decimal.
  destruct (Str.take_digits l 0 0) as [[m1 n1] r1] eqn:H1.
  destruct (take_digits_split _ _ _ _ _ _ H1) as (ds1 & -> & Hds1 & ->).
  cbn [Z.add].
  destruct r1 as [| c r].
  - (* digits only *)
    destruct (Z.eqb_spec (Z.of_nat (List.length ds1) + 0) 0) as [| Hn]; [discriminate |].
    intros _. rewrite app_nil_r.
    apply (lastc_digits [] ds1); [exact Hds1 |]. apply length_pos_nonnil. lia.
  - destruct (Ascii.eqb_spec c ".") as [-> | Hc].
    + (* digits, a point, digits *)
      destruct (Str.take_digits r m1 0) as [[m2 n2] r2] eqn:H2.
      destruct (take_digits_split _ _ _ _ _ _ H2) as (ds2 & -> & Hds2 & ->).
      destruct (Z.eqb_spec (Z.of_nat (List.length ds1) + (0 + Z.of_nat (List.length ds2))) 0)
        as [| Hn]; [discriminate |].
      destruct r2 as [| d r3].
      * intros _. rewrite app_nil_r. destruct ds2 as [| d ds2'].
        -- exists "."%char. rewrite lastc_snoc. split; reflexivity.
        -- replace (ds1 ++ "."%char :: d :: ds2') with ((ds1 ++ ["."%char]) ++ d :: ds2')
             by (rewrite <- app_assoc; reflexivity).
           apply lastc_digits; [exact Hds2 | discriminate].
      * destruct (Ascii.eqb (Str.lower d) "e"); [| discriminate].
        destruct (Str.parse_exponent r3) as [x |] eqn:Hx; [| discriminate]. intros _.
        replace (ds1 ++ "."%char :: ds2 ++ d :: r3)
          with ((ds1 ++ "."%char :: ds2 ++ [d]) ++ r3)
          by (rewrite <- !app_assoc; cbn; rewrite <- app_assoc; reflexivity).
        exact (parse_exponent_last _ _ _ Hx).
    + (* digits and an exponent *)
      destruct (Z.eqb_spec (Z.of_nat (List.length ds1) + 0) 0) as [| Hn]; [discriminate |].
      destruct (Ascii.eqb (Str.lower c) "e"); [| discriminate].
      destruct (Str.parse_exponent r) as [x |] eqn:Hx; [| discriminate]. intros _.
      replace (ds1 ++ c :: r) with ((ds1 ++ [c]) ++ r)
        by (rewrite <- app_assoc; reflexivity).
      exact (parse_exponent_last _ _ _ Hx).
Qed.

Lemma lastc_some (l : list ascii) : l <> [] -> exists c, lastc l = Some c.
Proof.
  induction l as [| c l IH]; [contradiction |]. intros _.
  destruct l as [| d l']; [exists c; reflexivity |].
  rewrite lastc_cons by discriminate. apply IH. discriminate.
Qed.

Lemma numeral_end_letter (c letter : ascii) :
  Str.lower c = letter ->
  (letter = "f" \/ letter = "n" \/ letter = "y")%char ->
  numeral_end c = true.
Proof.
  intros Hc Hletter. unfold numeral_end. rewrite Hc.
  destruct Hletter as [-> | [-> | ->]]; cbn [Ascii.eqb Bool.eqb];
    rewrite ?orb_true_r; reflexivity.
Qed.

(** A word that reads as [w] when lowered ends with a letter that lowers
    to the last letter of [w]. *)
Lemma lowered_word_last (l : list ascii) (w : string) (letter : ascii) :
  String.eqb (string_of_list_ascii (map Str.lower l)) w = true ->
  lastc (list_ascii_of_string w) = Some letter ->
  exists c, lastc l = Some c /\ Str.lower c = letter.
Proof.
  intros Heq Hlast. apply String.eqb_eq in Heq.
  apply (f_equal list_ascii_of_string) in Heq.
  rewrite list_ascii_of_string_of_list_ascii in Heq. rewrite <- Heq in Hlast.
  clear Heq. induction l as [| c l IH]; [discriminate Hlast |].
  destruct l as [| d l'].
  - exists c. split; [reflexivity |]. cbn in Hlast. congruence.
  - rewrite lastc_cons by discriminate. apply IH.
    cbn [map] in Hlast. rewrite lastc_cons in Hlast by discriminate. exact Hlast.
Qed.

Lemma unsigned_float_last (l : list ascii) (x : Float.float) :
  Str.unsigned_float l = Some x ->
  exists c, lastc l = Some c /\ numeral_end c = true.
Proof.
  unfold Str.unsigned_float.
  destruct (String.eqb (string_of_list_ascii (map Str.lower l)) "inf") eqn:Hinf.
  - intros _. destruct (lowered_word_last l "inf" "f" Hinf eq_refl) as (c & Hc & Hl).
    exists c. split; [exact Hc |]. apply (numeral_end_letter c "f"); auto.
  - destruct (String.eqb (string_of_list_ascii (map Str.lower l)) "infinity") eqn:Hinfinity.
    + intros _.
      destruct (lowered_word_last l "infinity" "y" Hinfinity eq_refl) as (c & Hc & Hl).
      exists c. split; [exact Hc |]. apply (numeral_end_letter c "y"); auto.
    + cbn [orb].
      destruct (String.eqb (string_of_list_ascii (map Str.lower l)) "nan") eqn:Hnan.
      * intros _. destruct (lowered_word_last l "nan" "n" Hnan eq_refl) as (c & Hc & Hl).
        exists c. split; [exact Hc |]. apply (numeral_end_letter c "n"); auto.
      * destruct (Str.parse_decimal l) as [[m e] |] eqn:Hdec; [| discriminate].
        intros _. exact (parse_decimal_last _ _ _ Hdec).
Qed.

(** A string that [float] accepts ends with one of the characters of
    [numeral_end]. *)
Lemma to_float_last (s : string) (x : Float.float) :
  Str.to_float s = Some x ->
  exists c, lastc (list_ascii_of_string s) = Some c /\ numeral_end c = true.
Proof.
  unfold Str.to_float.
  destruct (Str.drop_underscores " " (list_ascii_of_string s)) as [l |] eqn:Hdrop;
    [| discriminate].
  destruct (Str.take_sign (Str.strip l)) as [neg body] eqn:Hsign.
  destruct (Str.unsigned_float body) as [y |] eqn:Hbody; [| discriminate]. intros _.
  destruct (unsigned_float_last _ _ Hbody) as (c & Hc & Hend).
  destruct (take_sign_suffix _ _ _ Hsign) as (p & Hstrip).
  assert (Hbody_ne : body <> []) by (intros ->; discriminate Hc).
  assert (Hstrip_last : lastc (Str.strip l) = Some c).
  { rewrite Hstrip, lastc_app by exact Hbody_ne. exact Hc. }
  assert (Hl_ne : l <> []) by (intros ->; discriminate Hstrip_last).
  destruct (drop_underscores_last _ _ _ Hdrop) as [Hnil Hne].
  assert (Hs_ne : list_ascii_of_string s <> []).
  { intros H0. apply Hl_ne. exact (Hnil H0). }
  destruct (Hne Hs_ne) as [_ <-].
  destruct (lastc_some l Hl_ne) as (c0 & Hc0).
  exists c0. split; [exact Hc0 |].
  destruct (Str.is_space c0) eqn:Hspace.
  - unfold numeral_end. rewrite Hspace. rewrite ?orb_true_r. reflexivity.
  - rewrite (strip_last l c0 Hc0 Hspace) in Hstrip_last. congruence.
Qed.

Lemma endswith_last (s suffix : string) :
  Str.endswith s suffix = true -> suffix <> EmptyString ->
  lastc (list_ascii_of_string s) = lastc (list_ascii_of_string suffix).
Proof.
  intros Hend Hne.
  assert (Hsome : exists c, lastc (list_ascii_of_string suffix) = Some c).
  { apply lastc_some. destruct suffix; [contradiction | discriminate]. }
  destruct Hsome as (c & Hc).
  induction s as [| d s IH]; cbn [Str.endswith] in Hend.
  - destruct (String.eqb_spec EmptyString suffix) as [Heq | _];
      [rewrite Heq; reflexivity | discriminate Hend].
  - destruct (String.eqb_spec (String d s) suffix) as [Heq | _];
      [rewrite Heq; reflexivity |].
    specialize (IH Hend). cbn [list_ascii_of_string].
    rewrite lastc_cons; [exact IH |].
    intros H0. rewrite H0 in IH. rewrite Hc in IH. discriminate IH.
Qed.

Lemma numeral_ends_with_none (items : list (string * num)) (value : string)
    (x : Float.float) :
  suffixes_apart items = true ->
  Str.to_float value = Some x ->
  ends_with_none items value = true.
Proof.
  intros Hapart Hfloat. destruct (to_float_last _ _ Hfloat) as (c & Hc & Hend).
  unfold ends_with_none, suffixes_apart in *.
  rewrite forallb_forall in *. intros [suffix factor] Hin. cbn [fst].
  specialize (Hapart _ Hin). cbn [fst] in Hapart.
  apply negb_true_iff. destruct (Str.endswith value suffix) eqn:Hends; [| reflexivity].
  assert (Hne : suffix <> EmptyString) by (intros ->; discriminate Hapart).
  rewrite <- (endswith_last _ _ Hends Hne), Hc, Hend in Hapart. discriminate Hapart.
Qed.

(** The tables of the two parsers keep their suffixes apart from the
    numerals. *)
Lemma shipped_suffixes_apart :
  option_map suffixes_apart (suffixes MemoryParser) = Some true /\
  option_map suffixes_apart (suffixes CPUParser) = Some true.
Proof. split; reflexivity. Qed.

(** C5, as amended: a string that ends with no suffix of the table parses
    to its bare value when [float] accepts it and raises the [ValueError]
    naming the value, the kind and the URL otherwise; every string [float]
    accepts is such a string when no suffix of the table ends like a
    numeral, as in the two tables of the module; a string that ends with a
    suffix is parsed with the first such suffix of the table: the suffix is
    removed wherever it occurs, and the result is the number that remains
    times the factor, or the same [ValueError] when what remains is not a
    number. *)
Theorem parse_spec (cls : ParserClass) (items : list (string * num))
    (value : string) (Hitems : suffixes cls = Some items) :
  (ends_with_none items value = true ->
   parse cls value =
   match Str.to_float value with
   | Some x => Ok (PFloat x)
   | None => unparseable cls value
   end) /\
  (suffixes_apart items = true ->
   forall x, Str.to_float value = Some x -> parse cls value = Ok (PFloat x)) /\
  (forall pre post suffix factor,
     items = pre ++ (suffix, factor) :: post ->
     ends_with_none pre value = true ->
     Str.endswith value suffix = true ->
     parse cls value =
     match Str.to_float (Str.remove value suffix) with
     | Some x =>
         match Num.to_float factor with
         | Ok y => Ok (PFloat (Float.mul x y))
         | Raise _ => unparseable cls value
         end
     | None => unparseable cls value
     end).
Proof.
  assert (Hbare : ends_with_none items value = true ->
                  parse cls value =
                  match Str.to_float value with
                  | Some x => Ok (PFloat x)
                  | None => unparseable cls value
                  end).
  { intros Hnone. unfold parse, parse_try, unparseable. rewrite Hitems.
    rewrite (parse_items_no_suffix _ _ Hnone).
    unfold float_of_str. destruct (Str.to_float value); reflexivity. }
  split; [exact Hbare |]. split.
  - intros Hapart x Hx.
    rewrite (Hbare (numeral_ends_with_none _ _ _ Hapart Hx)), Hx. reflexivity.
  - intros pre post suffix factor -> Hpre Hend.
    unfold parse, parse_try, unparseable. rewrite Hitems.
    rewrite (parse_items_first_suffix _ _ _ _ _ Hpre Hend).
    unfold float_of_str.
    destruct (Str.to_float (Str.remove value suffix)) as [x |]; cbn [bind];
      [| reflexivity].
    unfold Num.mul, Num.arith. cbn [Num.to_float bind].
    destruct factor as [z | y]; cbn [Num.to_float bind]; [| reflexivity].
    destruct (Float.is_infinity (Float.of_Z z)); reflexivity.
Qed.

Lemma parse_spec_witness :
  parse MemoryParser "abc" = unparseable MemoryParser "abc" /\
  parse CPUParser "2" = Ok (PFloat (Float.of_Z 2)) /\
  parse MemoryParser " 1e3 " = Ok (PFloat (Float.of_Z 1000)) /\
  parse CPUParser "500m" = Ok (PFloat (Float.of_decimal 5 (-1))) /\
  parse MemoryParser "1.5Ki" = Ok (PFloat (Float.of_Z 1536)).
Proof.
  split; [| split; [| split; [| split]]].
  - exact (proj1 (parse_spec MemoryParser _ "abc" eq_refl) eq_refl).
  - exact (proj1 (parse_spec CPUParser _ "2" eq_refl) eq_refl).
  - exact (proj1 (proj2 (parse_spec MemoryParser _ " 1e3 " eq_refl)) eq_refl _ eq_refl).
  - exact (proj2 (proj2 (parse_spec CPUParser _ "500m" eq_refl))
             [] [] "m"%string _ eq_refl eq_refl eq_refl).
  - exact (proj2 (proj2 (parse_spec MemoryParser _ "1.5Ki" eq_refl))
             (firstn 11 (match suffixes MemoryParser with Some l => l | None => [] end))
             [] "Ki"%string (PInt (2 ^ 10)) eq_refl eq_refl eq_refl).
Defined.

(** C5, the claim as written fails: ["abcK"] carries the known suffix
    ["K"], and [parse] raises instead of returning a number. *)
Lemma parse_known_suffix_fails :
  Str.endswith "abcK" "K" = true /\
  In "K"%string (map fst (match suffixes MemoryParser with Some l => l | None => [] end)) /\
  parse MemoryParser "abcK" = unparseable MemoryParser "abcK" /\
  (forall x, parse MemoryParser "abcK" <> Ok x).
Proof.
  split; [reflexivity |]. split; [cbn; tauto |]. split; [reflexivity |].
  intros x H. vm_compute in H. discriminate H.
Qed.

(** C2: on ["1Gi"] the result is [2^30 / 1024]; on ["1G"] the division by
    [1024] gives [976562.5], which is not [1000]. *)
Theorem parse_to_megabytes_1Gi_1G :
  parse_to_megabytes MemoryParser "1Gi" = Ok (PFloat (Float.of_quotient (2 ^ 30) 1024)) /\
  parse_to_megabytes MemoryParser "1G" = Ok (PFloat (Float.of_decimal 9765625 (-1))) /\
  Float.of_decimal 9765625 (-1) = Float.of_quotient (10 ^ 9) 1024 /\
  Num.eqb (PFloat (Float.of_decimal 9765625 (-1))) (PInt 1000) = false.
Proof. split; [| split; [| split]]; vm_compute; reflexivity. Qed.

(** ** The sweep *)

(** Split on a comparison of two instants left in the goal. *)
Ltac case_instants :=
  match goal with
  | |- context [?a =? ?b] => destruct (Z.eqb_spec a b); try lia
  | |- context [?a <? ?b] => destruct (Z.ltb_spec a b); try lia
  end.

Ltac unfold_walk :=
  unfold max_parallel_tasks, max_parallel_cpus, max_parallel_ram_megabytes,
    max_parallel, _walk, seq, lift, get_children, ret, timeline_of.

Ltac sweep := unfold_walk; cbn; repeat (case_instants; cbn); try reflexivity.

(** A query builds its own events and its own processor: the timeline it
    runs on is the timeline it leaves. *)
Lemma max_parallel_frame (c : Processor.class) (self : TimelineReport) :
  snd (max_parallel c self) = self.
Proof.
  unfold_walk.
  destruct (events_of (children self)) as [es | e]; [| reflexivity].
  destruct (sorted Event.key Event.key_lt es) as [o | e]; [| reflexivity].
  destruct (process_all o (Processor.new c)) as [p | e]; reflexivity.
Qed.

(** C8: each of the three queries leaves the timeline as it found it,
    children and span, and asked again it gives the same answer. *)
Theorem max_parallel_queries_pure (self : TimelineReport) :
  (snd (max_parallel_tasks self) = self /\
   snd (max_parallel_cpus self) = self /\
   snd (max_parallel_ram_megabytes self) = self) /\
  (fst (max_parallel_tasks (snd (max_parallel_tasks self)))
     = fst (max_parallel_tasks self) /\
   fst (max_parallel_cpus (snd (max_parallel_cpus self)))
     = fst (max_parallel_cpus self) /\
   fst (max_parallel_ram_megabytes (snd (max_parallel_ram_megabytes self)))
     = fst (max_parallel_ram_megabytes self)).
Proof.
  unfold max_parallel_tasks, max_parallel_cpus, max_parallel_ram_megabytes.
  rewrite !max_parallel_frame. repeat split.
Qed.

(** C3, as amended: with no child the answer is [0]; with one child it is
    [1] when the child starts before it finishes, and [0] when its start
    is not before its finish, since the finish event is then processed
    first. *)
Theorem max_parallel_tasks_zero_one :
  (forall sp, fst (max_parallel_tasks (timeline_of [] sp)) = Ok (PInt 0)) /\
  (forall c m s f sp, s < f ->
     fst (max_parallel_tasks (timeline_of [Report (report_at c m s f)] sp))
       = Ok (PInt 1)) /\
  (forall c m s f sp, f <= s ->
     fst (max_parallel_tasks (timeline_of [Report (report_at c m s f)] sp))
       = Ok (PInt 0)).
Proof.
  split; [| split].
  - intros sp. reflexivity.
  - intros c m s f sp H. sweep.
  - intros c m s f sp H. sweep.
Qed.

Lemma max_parallel_tasks_zero_one_witness :
  fst (max_parallel_tasks
         (timeline_of [Report (report_at (PInt 1) (PInt 1) 0 10)] (mkTimedReport None None)))
    = Ok (PInt 1) /\
  fst (max_parallel_tasks
         (timeline_of [Report (report_at (PInt 1) (PInt 1) 10 10)] (mkTimedReport None None)))
    = Ok (PInt 0).
Proof.
  split.
  - apply (proj1 (proj2 max_parallel_tasks_zero_one)). lia.
  - apply (proj2 (proj2 max_parallel_tasks_zero_one)). lia.
Defined.

(** C3, the claim as written fails: one child that starts and finishes at
    the same instant is counted as no task. *)
Lemma max_parallel_tasks_one_instant_child :
  fst (max_parallel_tasks
         (timeline_of [Report (report_at (PInt 1) (PInt 1) 10 10)] (mkTimedReport None None)))
    = Ok (PInt 0) /\
  fst (max_parallel_tasks
         (timeline_of [Report (report_at (PInt 1) (PInt 1) 10 10)] (mkTimedReport None None)))
    <> Ok (PInt 1).
Proof. split; [reflexivity | discriminate]. Qed.

Lemma key_lt_timed (x y : Event.t) :
  timed_event x -> timed_event y ->
  (Event.key_lt (Event.key y) (Event.key x) = Ok true /\ event_le y x) \/
  (Event.key_lt (Event.key y) (Event.key x) = Ok false /\ event_le x y).
Proof.
  unfold timed_event, event_le, Event.key_lt, Event.key. cbn [fst snd].
  destruct (Event.time x) as [a |]; [| contradiction].
  destruct (Event.time y) as [b |]; [| contradiction]. intros _ _.
  destruct (Z.eqb_spec b a) as [-> | Hne].
  - destruct (Z.ltb_spec (Event.type y) (Event.type x)); [left | right];
      (split; [reflexivity | lia]).
  - destruct (Z.ltb_spec b a); [left | right]; (split; [reflexivity | lia]).
Qed.

Lemma event_le_trans (x y z : Event.t) :
  event_le x y -> event_le y z -> event_le x z.
Proof.
  unfold event_le.
  destruct (Event.time x), (Event.time y), (Event.time z); try contradiction; lia.
Qed.

Lemma insert_event (x : Event.t) (l : list Event.t) :
  timed_event x -> Forall timed_event l -> StronglySorted event_le l ->
  exists s, insert Event.key Event.key_lt x l = Ok s /\
            Permutation (x :: l) s /\ StronglySorted event_le s.
Proof.
  intros Hx. induction l as [| y l IH]; intros Htimed Hl; cbn [insert].
  - exists [x]. repeat split; auto. repeat constructor.
  - apply Forall_cons_iff in Htimed as [Hy Htimed].
    apply StronglySorted_inv in Hl as [Hl Hall].
    destruct (key_lt_timed x y Hx Hy) as [[-> Hyx] | [-> Hxy]]; cbn [bind].
    + destruct (IH Htimed Hl) as (s & -> & Hperm & Hs). cbn [bind].
      exists (y :: s). split; [reflexivity |]. split.
      * rewrite perm_swap. apply perm_skip. exact Hperm.
      * constructor; [exact Hs |].
        apply (Permutation_Forall Hperm). constructor; assumption.
    + exists (x :: y :: l). split; [reflexivity |]. split; [reflexivity |].
      constructor; [constructor; assumption |].
      constructor; [exact Hxy |].
      apply Forall_impl with (P := event_le y); [| exact Hall].
      intros z. apply event_le_trans. exact Hxy.
Qed.

(** Sorting events whose times are set never raises and puts them in the
    order of the key. *)
Lemma sorted_events (es : list Event.t) :
  Forall timed_event es ->
  exists o, sorted Event.key Event.key_lt es = Ok o /\
            Permutation es o /\ StronglySorted event_le o.
Proof.
  induction es as [| x es IH]; intros Htimed; cbn [sorted].
  - exists []. repeat split; auto. constructor.
  - apply Forall_cons_iff in Htimed as [Hx Htimed].
    destruct (IH Htimed) as (o & -> & Hperm & Hsorted). cbn [bind].
    assert (Ho : Forall timed_event o) by exact (Permutation_Forall Hperm Htimed).
    destruct (insert_event x o Hx Ho Hsorted) as (o' & Ho' & Hperm' & Hsorted').
    exists o'. split; [exact Ho' |]. split; [| exact Hsorted'].
    rewrite <- Hperm'. apply perm_skip. exact Hperm.
Qed.

(** C1, as amended: events whose times are set are sorted by time and, at
    the same time, by type, and a finish event sorts before a start event
    of the same instant; two reports of which one finishes at the instant
    the other starts are never counted as two parallel tasks; and the
    answer is [1] when neither report finishes before it starts and at
    least one of them lasts. *)
Theorem touching_reports_not_parallel :
  (forall es, Forall timed_event es ->
     exists o, sorted Event.key Event.key_lt es = Ok o /\
               Permutation es o /\ StronglySorted event_le o) /\
  (forall t, Event.key_lt (Some t, Event.FINISH) (Some t, Event.START) = Ok true /\
             Event.key_lt (Some t, Event.START) (Some t, Event.FINISH) = Ok false) /\
  (forall c1 m1 s1 f1 c2 m2 s2 f2 sp,
     f1 = s2 \/ f2 = s1 ->
     let self := timeline_of [Report (report_at c1 m1 s1 f1);
                              Report (report_at c2 m2 s2 f2)] sp in
     (fst (max_parallel_tasks self) = Ok (PInt 0) \/
      fst (max_parallel_tasks self) = Ok (PInt 1)) /\
     (s1 <= f1 -> s2 <= f2 -> s1 < f1 \/ s2 < f2 ->
      fst (max_parallel_tasks self) = Ok (PInt 1))).
Proof.
  split; [exact sorted_events |]. split.
  - intros t. unfold Event.key_lt. cbn. rewrite Z.eqb_refl. split; reflexivity.
  - intros c1 m1 s1 f1 c2 m2 s2 f2 sp Htouch self. subst self. split.
    + destruct Htouch; subst; sweep; auto.
    + intros H1 H2 H3. destruct Htouch; subst; sweep.
Qed.

(** C1, the claim as written fails: two reports that both start and
    finish at the instant [10] touch, and the answer is [0]. *)
Lemma touching_instant_reports_count_zero :
  let self := timeline_of [Report (report_at (PInt 1) (PInt 1) 10 10);
                           Report (report_at (PInt 1) (PInt 1) 10 10)]
                          (mkTimedReport None None) in
  fst (max_parallel_tasks self) = Ok (PInt 0) /\
  fst (max_parallel_tasks self) <> Ok (PInt 1).
Proof. split; [reflexivity | discriminate]. Qed.

Lemma touching_reports_not_parallel_witness :
  fst (max_parallel_tasks
         (timeline_of [Report (report_at (PInt 1) (PInt 1) 0 10);
                       Report (report_at (PInt 1) (PInt 1) 10 20)]
                      (mkTimedReport None None)))
    = Ok (PInt 1).
Proof.
  apply (proj2 (proj2 (proj2 touching_reports_not_parallel)
                  (PInt 1) (PInt 1) 0 10 (PInt 1) (PInt 1) 10 20
                  (mkTimedReport None None) (or_introl eq_refl))); lia.
Defined.

(** C7: two reports that overlap, with 2 and 3 CPUs, peak at 5 CPUs,
    whether the weights are ints or floats; an event makes the processor
    add the unit of its report on START and subtract it on FINISH, and
    take the maximum of the old maximum and the new count; the query
    is the processing, from a fresh processor, of the sorted events. *)
Theorem max_parallel_cpus_sweep :
  (forall m1 m2 s1 f1 s2 f2 sp,
     s1 <= s2 -> s2 < f1 -> f1 <= f2 ->
     fst (max_parallel_cpus
            (timeline_of [Report (report_at (PInt 2) m1 s1 f1);
                          Report (report_at (PInt 3) m2 s2 f2)] sp))
       = Ok (PInt 5) /\
     fst (max_parallel_cpus
            (timeline_of [Report (report_at (PFloat (Float.of_Z 2)) m1 s1 f1);
                          Report (report_at (PFloat (Float.of_Z 3)) m2 s2 f2)] sp))
       = Ok (PFloat (Float.of_Z 5))) /\
  (forall self report,
     Processor.process self report Event.START =
       (u <- Processor.count_unit self report ;;
        c <- Num.add (Processor.count self) u ;;
        Ok (Processor.mk (Processor.cls self) c (Num.max (Processor.max self) c))) /\
     Processor.process self report Event.FINISH =
       (u <- Processor.count_unit self report ;;
        c <- Num.sub (Processor.count self) u ;;
        Ok (Processor.mk (Processor.cls self) c (Num.max (Processor.max self) c)))) /\
  (forall c self,
     fst (max_parallel c self) =
       (events <- events_of (children self) ;;
        ordered <- sorted Event.key Event.key_lt events ;;
        p <- process_all ordered (Processor.new c) ;;
        Ok (Processor.max p))).
Proof.
  split; [| split].
  - intros m1 m2 s1 f1 s2 f2 sp H1 H2 H3. split; sweep.
  - intros self report. unfold Processor.process. cbn [Z.eqb Event.START Event.FINISH].
    split.
    + destruct (Processor.count_unit self report); reflexivity.
    + destruct (Processor.count_unit self report); reflexivity.
  - intros c self. unfold_walk.
    destruct (events_of (children self)) as [es | e]; [| reflexivity]. cbn [bind].
    destruct (sorted Event.key Event.key_lt es) as [o | e]; [| reflexivity]. cbn [bind].
    destruct (process_all o (Processor.new c)) as [p | e]; reflexivity.
Qed.

Lemma max_parallel_cpus_sweep_witness :
  fst (max_parallel_cpus
         (timeline_of [Report (report_at (PInt 2) (PInt 0) 0 10);
                       Report (report_at (PInt 3) (PInt 0) 5 15)]
                      (mkTimedReport None None)))
    = Ok (PInt 5) /\
  fst (max_parallel_cpus
         (timeline_of [Report (report_at (PFloat (Float.of_Z 2)) (PInt 0) 0 10);
                       Report (report_at (PFloat (Float.of_Z 3)) (PInt 0) 5 15)]
                      (mkTimedReport None None)))
    = Ok (PFloat (Float.of_Z 5)).
Proof.
  apply (proj1 max_parallel_cpus_sweep); lia.
Defined.

(** ** Totals *)

Lemma mapM_app {A B : Type} (f : A -> res B) (l1 l2 : list A) :
  mapM f (l1 ++ l2) =
  (b1 <- mapM f l1 ;; b2 <- mapM f l2 ;; Ok (b1 ++ b2)).
Proof.
  induction l1 as [| a l1 IH]; cbn [app mapM bind].
  - destruct (mapM f l2); reflexivity.
  - destruct (f a) as [b | e]; cbn [bind]; [| reflexivity].
    rewrite IH. destruct (mapM f l1) as [b1 | e]; cbn [bind]; [| reflexivity].
    destruct (mapM f l2); reflexivity.
Qed.

Lemma mapM_reports {B : Type} (f : TimedResourceReport -> res B) (cs : list child) :
  forallb is_report cs = true ->
  mapM (fun c => r <- getattr (fun r => r) c ;; f r) cs = mapM f (reports_of cs).
Proof.
  induction cs as [| [r | d] cs IH]; cbn [forallb is_report andb]; intros H;
    [reflexivity | | discriminate H].
  cbn [mapM reports_of getattr bind]. rewrite (IH H). reflexivity.
Qed.

Lemma sum_from_app (acc : num) (l1 l2 : list num) :
  Num.sum_from acc (l1 ++ l2) = (a <- Num.sum_from acc l1 ;; Num.sum_from a l2).
Proof.
  revert acc. induction l1 as [| x l1 IH]; intros acc; cbn [app Num.sum_from bind].
  - reflexivity.
  - destruct (Num.add acc x) as [a | e]; cbn [bind]; [apply IH | reflexivity].
Qed.

Lemma total_of_snoc (hours_of : TimedResourceReport -> res num)
    (rs : list TimedResourceReport) (r : TimedResourceReport) (t h : num) :
  total_of hours_of rs = Ok t ->
  hours_of r = Ok h ->
  total_of hours_of (rs ++ [r]) = Num.add t h.
Proof.
  unfold total_of. intros Ht Hh. rewrite mapM_app. cbn [mapM bind].
  destruct (mapM hours_of rs) as [hs | e]; cbn [bind] in *; [| discriminate].
  rewrite Hh. cbn [bind]. unfold Num.sum in *. rewrite sum_from_app, Ht.
  cbn [bind Num.sum_from]. destruct (Num.add t h); reflexivity.
Qed.

(** C9: the total CPU hours of a timeline of reports are the hours of its
    reports, each the CPUs times the elapsed hours, added from [0] in the
    order of the children: nothing for no child, and the total so far plus
    the hours of the child added last; the same holds of the RAM megabyte
    hours.  One child with 2 CPUs that lasts an hour totals the float
    [2.0]. *)
Theorem total_hours_are_sums :
  (forall self, forallb is_report (children self) = true ->
     fst (total_cpu_hours self) = total_of cpu_hours (reports_of (children self)) /\
     fst (total_ram_megabyte_hours self)
       = total_of ram_megabyte_hours (reports_of (children self))) /\
  (forall r,
     cpu_hours r = (h <- elapsed_hours r ;; Num.mul (cpus r) h) /\
     ram_megabyte_hours r = (h <- elapsed_hours r ;; Num.mul (ram_megabytes r) h)) /\
  (forall hours_of,
     total_of hours_of [] = Ok (PInt 0) /\
     forall rs r t h,
       total_of hours_of rs = Ok t -> hours_of r = Ok h ->
       total_of hours_of (rs ++ [r]) = Num.add t h) /\
  (forall m s sp,
     fst (total_cpu_hours
            (timeline_of [Report (report_at (PInt 2) m s (s + 3600 * 10 ^ 6))] sp))
       = Ok (PFloat (Float.of_Z 2)) /\
     fst (total_cpu_hours
            (timeline_of [Report (report_at (PFloat (Float.of_Z 2)) m s
                                    (s + 3600 * 10 ^ 6))] sp))
       = Ok (PFloat (Float.of_Z 2))).
Proof.
  split; [| split; [| split]].
  - intros self Hreports.
    unfold total_cpu_hours, total_ram_megabyte_hours, seq, lift, get_children, total_of.
    cbn [fst]. rewrite !mapM_reports by assumption.
    split.
    + destruct (mapM cpu_hours (reports_of (children self))); reflexivity.
    + destruct (mapM ram_megabyte_hours (reports_of (children self))); reflexivity.
  - intros r. split; reflexivity.
  - intros hours_of. split; [reflexivity |]. apply total_of_snoc.
  - intros m s sp.
    unfold total_cpu_hours, seq, lift, get_children, timeline_of, report_at.
    cbn [fst children mapM getattr bind]. unfold cpu_hours, elapsed_hours, elapsed_seconds.
    cbn [timed start_time finish_time cpus].
    replace (s + 3600 * 10 ^ 6 - s) with 3600000000 by lia.
    split; vm_compute; reflexivity.
Qed.

Lemma total_hours_are_sums_witness :
  fst (total_cpu_hours
         (timeline_of [Report (report_at (PInt 2) (PInt 1) 0 3600000000);
                       Report (report_at (PInt 3) (PInt 1) 0 1800000000)]
                      (mkTimedReport None None)))
    = total_of cpu_hours [report_at (PInt 2) (PInt 1) 0 3600000000;
                          report_at (PInt 3) (PInt 1) 0 1800000000] /\
  total_of cpu_hours ([report_at (PInt 2) (PInt 1) 0 3600000000]
                        ++ [report_at (PInt 3) (PInt 1) 0 1800000000])
    = Num.add (PFloat (Float.of_Z 2)) (PFloat (Float.of_decimal 15 (-1))).
Proof.
  split.
  - apply (proj1 (proj1 total_hours_are_sums
                    (timeline_of [Report (report_at (PInt 2) (PInt 1) 0 3600000000);
                                  Report (report_at (PInt 3) (PInt 1) 0 1800000000)]
                                 (mkTimedReport None None))
                    eq_refl)).
  - apply (proj2 (proj1 (proj2 (proj2 total_hours_are_sums)) cpu_hours));
      vm_compute; reflexivity.
Defined.

(** ** The span of a timeline *)

Lemma insert_datetime (x : datetime) (l : list datetime) :
  StronglySorted Z.le l ->
  exists s, insert (fun t => t) datetime_lt x l = Ok s /\
            Permutation (x :: l) s /\ StronglySorted Z.le s.
Proof.
  induction l as [| y l IH]; intros Hl; cbn [insert datetime_lt bind].
  - exists [x]. repeat split; auto. repeat constructor.
  - apply StronglySorted_inv in Hl as [Hl Hy].
    destruct (Z.ltb_spec y x) as [Hyx | Hxy].
    + destruct (IH Hl) as (s & -> & Hperm & Hs). cbn [bind].
      exists (y :: s). split; [reflexivity |]. split.
      * rewrite perm_swap. apply perm_skip. exact Hperm.
      * constructor; [exact Hs |].
        apply (Permutation_Forall Hperm). constructor; [lia | exact Hy].
    + exists (x :: y :: l). split; [reflexivity |]. split; [reflexivity |].
      constructor; [constructor; assumption |].
      constructor; [exact Hxy |].
      apply Forall_impl with (P := fun z => y <= z); [intros; lia | exact Hy].
Qed.

(** Sorting a list of [datetime]s never raises and puts them in order. *)
Lemma sorted_datetime (l : list datetime) :
  exists s, sorted (fun t => t) datetime_lt l = Ok s /\
            Permutation l s /\ StronglySorted Z.le s.
Proof.
  induction l as [| x l (s & Hs & Hperm & Hsorted)]; cbn [sorted bind].
  - exists []. repeat split; auto. constructor.
  - rewrite Hs. cbn [bind].
    destruct (insert_datetime x s Hsorted) as (s' & Hs' & Hperm' & Hsorted').
    exists s'. split; [exact Hs' |]. split; [| exact Hsorted'].
    rewrite <- Hperm'. apply perm_skip. exact Hperm.
Qed.

Lemma sorted_last_is_greatest (s : list datetime) (z : datetime) :
  StronglySorted Z.le (s ++ [z]) -> Forall (fun x => x <= z) (s ++ [z]).
Proof.
  induction s as [| y s IH]; cbn [app]; intros H.
  - repeat constructor. lia.
  - apply StronglySorted_inv in H as [Hs Hy].
    constructor; [| exact (IH Hs)].
    rewrite Forall_forall in Hy. apply Hy. apply in_or_app. right. left. reflexivity.
Qed.

Lemma mapM_getattr {B : Type} (f : TimedResourceReport -> B) (cs : list child) :
  forallb is_report cs = true ->
  mapM (getattr f) cs = Ok (map f (reports_of cs)).
Proof.
  induction cs as [| [r | d] cs IH]; cbn [forallb is_report andb]; intros H;
    [reflexivity | | discriminate H].
  cbn [mapM reports_of getattr bind map]. rewrite (IH H). reflexivity.
Qed.

Lemma sorted_first_is_min (x : datetime) (l : list datetime) :
  exists m, sorted_first (x :: l) = Ok m /\ is_min m (x :: l).
Proof.
  unfold sorted_first.
  destruct (sorted_datetime (x :: l)) as (s & -> & Hperm & Hsorted). cbn [bind].
  destruct s as [| first s'].
  - apply Permutation_sym, Permutation_nil in Hperm. discriminate Hperm.
  - exists first. split; [reflexivity |]. split.
    + apply (Permutation_in _ (Permutation_sym Hperm)). left. reflexivity.
    + apply (Permutation_Forall (Permutation_sym Hperm)).
      apply StronglySorted_inv in Hsorted as [_ Hall].
      constructor; [lia | exact Hall].
Qed.

Lemma sorted_last_is_max (x : datetime) (l : list datetime) :
  exists m, sorted_last (x :: l) = Ok m /\ is_max m (x :: l).
Proof.
  unfold sorted_last.
  destruct (sorted_datetime (x :: l)) as (s & -> & Hperm & Hsorted). cbn [bind].
  destruct (rev s) as [| last s'] eqn:Hrev;
    apply (f_equal (@rev _)) in Hrev; rewrite rev_involutive in Hrev;
    cbn [rev] in Hrev; subst s.
  - apply Permutation_sym, Permutation_nil in Hperm. discriminate Hperm.
  - exists last. split; [reflexivity |]. split.
    + apply (Permutation_in _ (Permutation_sym Hperm)).
      apply in_or_app. right. left. reflexivity.
    + apply (Permutation_Forall (Permutation_sym Hperm)).
      apply sorted_last_is_greatest. exact Hsorted.
Qed.

(** [_recalculate_times] on a timeline of reports. *)
Lemma recalculate_times_spec (self : TimelineReport) :
  forallb is_report (children self) = true ->
  let self' := snd (_recalculate_times self) in
  let rs := reports_of (children self) in
  fst (_recalculate_times self) = Ok tt /\
  children self' = children self /\
  match starts_of rs with
  | [] => start_time self' = start_time self
  | _ :: _ => exists m, start_time self' = Some m /\ is_min m (starts_of rs)
  end /\
  match finishes_of rs with
  | [] => finish_time self' = finish_time self
  | _ :: _ => exists m, finish_time self' = Some m /\ is_max m (finishes_of rs)
  end.
Proof.
  intros Hreports. cbv zeta.
  unfold _recalculate_times, seq, lift, get_children, ret, starts_of, finishes_of.
  rewrite (mapM_getattr _ _ Hreports).
  destruct (set_times (map (fun r : TimedResourceReport => start_time r)
                           (reports_of (children self)))) as [| x ss].
  - rewrite (mapM_getattr _ _ Hreports).
    destruct (set_times (map (fun r : TimedResourceReport => finish_time r)
                             (reports_of (children self)))) as [| y fs].
    + cbn. repeat split.
    + destruct (sorted_last_is_max y fs) as (m & -> & Hmax).
      cbn. repeat split. exists m. split; [reflexivity | exact Hmax].
  - destruct (sorted_first_is_min x ss) as (m & -> & Hmin).
    cbn [set_start_time children span]. rewrite (mapM_getattr _ _ Hreports).
    destruct (set_times (map (fun r : TimedResourceReport => finish_time r)
                             (reports_of (children self)))) as [| y fs].
    + cbn. repeat split. exists m. split; [reflexivity | exact Hmin].
    + destruct (sorted_last_is_max y fs) as (m' & -> & Hmax).
      cbn. repeat split.
      * exists m. split; [reflexivity | exact Hmin].
      * exists m'. split; [reflexivity | exact Hmax].
Qed.

(** C6: adding a report to a timeline of reports appends it and leaves the
    start of the timeline at the least start that is set among the
    children and its finish at the greatest finish that is set; three
    reports added to a new timeline leave the span from the least of the
    three starts to the greatest of the three finishes. *)
Theorem add_report_span :
  (forall self r,
     forallb is_report (children self) = true ->
     let self' := snd (add_report (Report r) self) in
     let rs := reports_of (children self') in
     fst (add_report (Report r) self) = Ok tt /\
     children self' = children self ++ [Report r] /\
     (starts_of rs <> [] ->
      exists m, start_time self' = Some m /\ is_min m (starts_of rs)) /\
     (finishes_of rs <> [] ->
      exists m, finish_time self' = Some m /\ is_max m (finishes_of rs))) /\
  (forall c1 m1 t1 f1 c2 m2 t2 f2 c3 m3 t3 f3,
     let self1 := snd (add_report (Report (report_at c1 m1 t1 f1)) TimelineReport_new) in
     let self2 := snd (add_report (Report (report_at c2 m2 t2 f2)) self1) in
     let self3 := snd (add_report (Report (report_at c3 m3 t3 f3)) self2) in
     start_time self3 = Some (Z.min t1 (Z.min t2 t3)) /\
     finish_time self3 = Some (Z.max f1 (Z.max f2 f3))).
Proof.
  split.
  - intros self r Hreports. cbv zeta.
    unfold add_report, seq, get_children, set_children. cbn [fst snd].
    set (self0 := {| children := children self ++ [Report r]; span := self |}).
    assert (H0 : forallb is_report (children self0) = true).
    { unfold self0. cbn [children]. rewrite forallb_app, Hreports. reflexivity. }
    destruct (recalculate_times_spec self0 H0) as (Hok & Hch & Hstart & Hfinish).
    destruct (_recalculate_times self0) as [[[] | e] self'] eqn:Hrun;
      cbn [fst snd] in *; [| discriminate Hok].
    split; [reflexivity |]. split; [exact Hch |]. rewrite Hch. split.
    + intros Hne. destruct (starts_of (reports_of (children self0))); [contradiction | exact Hstart].
    + intros Hne. destruct (finishes_of (reports_of (children self0))); [contradiction | exact Hfinish].
  - intros. subst self1 self2 self3.
    unfold add_report, _recalculate_times, sorted_first, sorted_last, seq, lift,
      get_children, set_children, set_start_time, set_finish_time, ret,
      TimelineReport_new, report_at.
    cbn. repeat (case_instants; cbn); split; f_equal; lia.
Qed.

Lemma add_report_span_witness :
  let self := timeline_of [Report (report_at (PInt 1) (PInt 1) 5 9)]
                          (mkTimedReport (Some 5) (Some 9)) in
  let self' := snd (add_report (Report (report_at (PInt 1) (PInt 1) 2 7)) self) in
  fst (add_report (Report (report_at (PInt 1) (PInt 1) 2 7)) self) = Ok tt /\
  children self' = children self ++ [Report (report_at (PInt 1) (PInt 1) 2 7)].
Proof.
  cbv zeta.
  pose proof (proj1 add_report_span
                (timeline_of [Report (report_at (PInt 1) (PInt 1) 5 9)]
                             (mkTimedReport (Some 5) (Some 9)))
                (report_at (PInt 1) (PInt 1) 2 7) eq_refl) as H.
  cbv zeta in H. split; [exact (proj1 H) | exact (proj1 (proj2 H))].
Defined.

(** ** to_yaml *)

Lemma mapM_vars (cs : list child) :
  forallb is_report cs = true ->
  mapM vars cs = Ok (map report_vars (reports_of cs)).
Proof.
  induction cs as [| [r | d] cs IH]; cbn [forallb is_report andb]; intros H;
    [reflexivity | | discriminate H].
  cbn [mapM reports_of vars bind map]. rewrite (IH H). reflexivity.
Qed.

Lemma to_yaml_run (safe_dump : pyval -> string) (self : TimelineReport) :
  forallb is_report (children self) = true ->
  exists doc,
    to_yaml safe_dump self =
    (Ok doc, {| children := dicts_of (children self); span := span self |}).
Proof.
  intros Hreports. unfold to_yaml, seq, lift, get_children, set_children.
  rewrite (mapM_vars _ Hreports). eexists. reflexivity.
Qed.

(** C10: [to_yaml] on a timeline of reports returns the dump and leaves
    in [children] the attribute dictionaries of the reports in place of
    the reports, the span as it was; when there is a child, the totals,
    the three queries and [add_report] then raise [AttributeError] at the
    first child, and a second [to_yaml] raises [TypeError]. *)
Theorem to_yaml_rebinds_children (safe_dump : pyval -> string)
    (self : TimelineReport) :
  forallb is_report (children self) = true ->
  let self' := snd (to_yaml safe_dump self) in
  (exists doc, fst (to_yaml safe_dump self) = Ok doc) /\
  children self' = dicts_of (children self) /\
  span self' = span self /\
  (children self <> [] ->
   children self' <> children self /\
   fst (total_cpu_hours self') = Raise AttributeError /\
   fst (total_ram_megabyte_hours self') = Raise AttributeError /\
   (forall c, fst (max_parallel c self') = Raise AttributeError) /\
   (forall r, fst (add_report r self') = Raise AttributeError) /\
   fst (to_yaml safe_dump self') = Raise TypeError).
Proof.
  intros Hreports. cbv zeta.
  destruct (to_yaml_run safe_dump self Hreports) as (doc & ->). cbn [fst snd].
  split; [exists doc; reflexivity |]. split; [reflexivity |].
  split; [reflexivity |].
  intros Hne. unfold dicts_of.
  destruct (children self) as [| [r | d] cs]; [contradiction | | discriminate Hreports].
  cbn [reports_of map].
  split; [discriminate |].
  unfold total_cpu_hours, total_ram_megabyte_hours, max_parallel, _walk, add_report,
    _recalculate_times, to_yaml, seq, lift, get_children, set_children, ret.
  cbn [fst snd children span mapM getattr vars bind events_of Event.start_event app].
  repeat split.
Qed.

Lemma to_yaml_rebinds_children_witness :
  let self := timeline_of [Report (report_at (PInt 2) (PInt 1) 3 30)]
                          (mkTimedReport (Some 3) (Some 30)) in
  let self' := snd (to_yaml (fun _ => EmptyString) self) in
  children self'
    = [Dict [("cpus"%string, VNum (PInt 2)); ("ram_megabytes"%string, VNum (PInt 1));
             ("start_time"%string, VDatetime 3); ("finish_time"%string, VDatetime 30)]] /\
  fst (total_cpu_hours self') = Raise AttributeError /\
  fst (max_parallel_tasks self') = Raise AttributeError /\
  fst (to_yaml (fun _ => EmptyString) self') = Raise TypeError.
Proof.
  cbv zeta.
  pose proof (to_yaml_rebinds_children (fun _ => EmptyString)
                (timeline_of [Report (report_at (PInt 2) (PInt 1) 3 30)]
                             (mkTimedReport (Some 3) (Some 30))) eq_refl) as H.
  cbv zeta in H. destruct H as (_ & Hch & _ & Hafter).
  specialize (Hafter ltac:(discriminate)).
  destruct Hafter as (_ & Hcpu & _ & Hmax & _ & Hyaml).
  split; [exact Hch |]. split; [exact Hcpu |]. split; [exact (Hmax _) | exact Hyaml].
Defined.

(** ** The sweep computes the peak load *)

Lemma num_max_int (m k : Z) : Num.max (PInt m) (PInt k) = PInt (Z.max m k).
Proof.
  unfold Num.max, Num.gtb, Num.compare.
  destruct (Z.compare_spec k m) as [H | H | H]; f_equal; lia.
Qed.

Lemma total_app (l1 l2 : list Z) : total (l1 ++ l2) = total l1 + total l2.
Proof.
  unfold total. induction l1 as [| d l1 IH]; cbn [app fold_right]; [reflexivity |].
  rewrite IH. lia.
Qed.

Lemma peak_ge_top (ds : list Z) : forall k m, m <= peak ds k m.
Proof.
  induction ds as [| d ds IH]; intros k m; cbn [peak]; [lia |].
  specialize (IH (k + d) (Z.max m (k + d))). lia.
Qed.

(** The peak is at least the count after any number of steps. *)
Lemma peak_ge_prefix (pre post : list Z) : forall k m,
  k <= m -> k + total pre <= peak (pre ++ post) k m.
Proof.
  induction pre as [| d pre IH]; intros k m Hkm; cbn [app].
  - pose proof (peak_ge_top post k m). cbn. lia.
  - cbn [peak]. specialize (IH (k + d) (Z.max m (k + d)) ltac:(lia)).
    unfold total in *. cbn [fold_right]. lia.
Qed.

Section IntSweep.

Variable c : Processor.class.

(** The peak is the maximum it started from, or the count right after a
    step that raised it. *)
Lemma peak_attained (es : list Event.t) : forall k m,
  k <= m ->
  peak (map (signed c) es) k m = m \/
  exists pre e post,
    es = pre ++ e :: post /\ 0 < signed c e /\
    peak (map (signed c) es) k m = k + total (map (signed c) pre) + signed c e.
Proof.
  induction es as [| e es IH]; intros k m Hkm; cbn [map peak]; [left; reflexivity |].
  destruct (IH (k + signed c e) (Z.max m (k + signed c e)) ltac:(lia))
    as [Htop | (pre & e' & post & -> & Hpos & Hpeak)].
  - rewrite Htop. destruct (Z.max_spec m (k + signed c e)) as [[Hlt ->] | [Hle ->]].
    + right. exists [], e, es. split; [reflexivity |]. split; [lia |]. cbn. lia.
    + left. reflexivity.
  - right. exists (e :: pre), e', post. split; [reflexivity |]. split; [exact Hpos |].
    rewrite Hpeak. unfold total. cbn [map fold_right]. lia.
Qed.

Lemma whole_event_report (e : Event.t) :
  whole_event c e ->
  exists r s f w, Event.report e = Report r /\ start_time r = Some s /\
                  finish_time r = Some f /\ int_unit c r = Some w /\
                  s <= f /\ 0 <= w.
Proof.
  intros (_ & _ & Hwhole). unfold whole_child, whole_report in Hwhole.
  destruct (Event.report e) as [r | d]; [| discriminate Hwhole].
  destruct (start_time r) as [s |] eqn:Hs; [| discriminate Hwhole].
  destruct (finish_time r) as [f |] eqn:Hf; [| discriminate Hwhole].
  destruct (int_unit c r) as [w |] eqn:Hw; [| discriminate Hwhole].
  apply andb_prop in Hwhole as [Hsf Hpos].
  apply Z.leb_le in Hsf. apply Z.leb_le in Hpos.
  exists r, s, f, w. repeat split; assumption.
Qed.

Lemma count_unit_whole (p : Processor.t) (r : TimedResourceReport) (w : Z) :
  Processor.cls p = c -> int_unit c r = Some w ->
  Processor.count_unit p (Report r) = Ok (PInt w).
Proof.
  intros Hcls. unfold Processor.count_unit, int_unit. rewrite Hcls.
  destruct c; cbn [getattr].
  - intros [= <-]. reflexivity.
  - destruct (cpus r); [intros [= <-]; reflexivity | discriminate].
  - destruct (ram_megabytes r); [intros [= <-]; reflexivity | discriminate].
Qed.

(** One event in whole numbers: the count moves by the signed unit and
    the maximum follows. *)
Lemma process_whole (e : Event.t) (k m : Z) :
  whole_event c e ->
  Event_process e (Processor.mk c (PInt k) (PInt m)) =
  Ok (Processor.mk c (PInt (k + signed c e)) (PInt (Z.max m (k + signed c e)))).
Proof.
  intros Hwhole.
  destruct (whole_event_report e Hwhole) as (r & s & f & w & Hr & _ & _ & Hw & _ & _).
  destruct Hwhole as (_ & Htype & _).
  unfold Event_process, Processor.process, signed, weight. rewrite Hr, Hw.
  rewrite (count_unit_whole (Processor.mk c (PInt k) (PInt m)) r w eq_refl Hw).
  cbn [Processor.count Processor.max Processor.cls].
  destruct Htype as [-> | ->]; cbn [Z.eqb Event.START Event.FINISH Pos.eqb bind Num.add Num.sub Num.arith];
    rewrite num_max_int; unfold Event.START, Event.FINISH.
  - replace (k + 1 * w) with (k + w) by lia. reflexivity.
  - replace (k + -1 * w) with (k - w) by lia. reflexivity.
Qed.

Lemma process_all_whole (es : list Event.t) : forall k m,
  Forall (whole_event c) es ->
  process_all es (Processor.mk c (PInt k) (PInt m)) =
  Ok (Processor.mk c (PInt (k + total (map (signed c) es)))
                     (PInt (peak (map (signed c) es) k m))).
Proof.
  induction es as [| e es IH]; intros k m Hall; cbn [process_all map peak].
  - unfold total. cbn [fold_right]. rewrite Z.add_0_r. reflexivity.
  - apply Forall_cons_iff in Hall as [He Hall].
    rewrite (process_whole e k m He). cbn [bind]. rewrite (IH _ _ Hall).
    unfold total. cbn [fold_right]. rewrite Z.add_assoc. reflexivity.
Qed.

Lemma events_of_whole (cs : list child) :
  forallb (whole_child c) cs = true ->
  events_of cs = Ok (report_events cs) /\ Forall (whole_event c) (report_events cs).
Proof.
  induction cs as [| [r | d] cs IH]; cbn [forallb whole_child]; intros H.
  - split; [reflexivity | constructor].
  - apply andb_prop in H as [Hr Hcs]. destruct (IH Hcs) as [Hev Hall].
    cbn [events_of report_events Event.start_event Event.finish_event getattr bind].
    rewrite Hev. cbn [bind]. split; [reflexivity |].
    assert (Hs : start_time r <> None /\ finish_time r <> None).
    { unfold whole_report in Hr.
      destruct (start_time r); [| discriminate Hr].
      destruct (finish_time r); [| discriminate Hr]. split; discriminate. }
    constructor; [| constructor; [| exact Hall]].
    + split; [exact (proj1 Hs) |]. split; [left; reflexivity | exact Hr].
    + split; [exact (proj2 Hs) |]. split; [right; reflexivity | exact Hr].
  - discriminate H.
Qed.

(** The steps at or before [t] of the events of whole reports add up to
    the load at [t]. *)
Lemma total_until_report_events (t : datetime) (cs : list child) :
  forallb (whole_child c) cs = true ->
  total_until c t (report_events cs) = load c t (reports_of cs).
Proof.
  induction cs as [| [r | d] cs IH]; cbn [forallb whole_child]; intros H.
  - reflexivity.
  - apply andb_prop in H as [Hr Hcs].
    cbn [report_events total_until reports_of load Event.time]. rewrite (IH Hcs).
    unfold signed, runs_at, whole_report in *. cbn [Event.report Event.type].
    destruct (start_time r) as [s |]; [| discriminate Hr].
    destruct (finish_time r) as [f |]; [| discriminate Hr].
    destruct (int_unit c r) as [w |] eqn:Hw; [| discriminate Hr].
    apply andb_prop in Hr as [Hsf _]. apply Z.leb_le in Hsf.
    unfold Event.START, Event.FINISH.
    destruct (Z.leb_spec s t), (Z.leb_spec f t), (Z.ltb_spec t f); cbn [andb]; lia.
  - discriminate H.
Qed.

Lemma total_until_perm (t : datetime) (es es' : list Event.t) :
  Permutation es es' -> total_until c t es = total_until c t es'.
Proof.
  induction 1; cbn [total_until]; lia.
Qed.

Lemma total_until_early (t : datetime) (es : list Event.t) :
  Forall (fun e => exists u, Event.time e = Some u /\ u <= t) es ->
  total_until c t es = total (map (signed c) es).
Proof.
  induction 1 as [| e es (u & Hu & Hle) _ IH]; [reflexivity |].
  cbn [total_until map]. unfold total in *. cbn [fold_right]. rewrite Hu, IH.
  destruct (Z.leb_spec u t); lia.
Qed.

Lemma total_until_late (t : datetime) (es : list Event.t) :
  Forall (fun e => exists u, Event.time e = Some u /\ t < u) es ->
  total_until c t es = 0.
Proof.
  induction 1 as [| e es (u & Hu & Hlt) _ IH]; [reflexivity |].
  cbn [total_until]. rewrite Hu, IH. destruct (Z.leb_spec u t); lia.
Qed.

Lemma total_until_app (t : datetime) (es1 es2 : list Event.t) :
  total_until c t (es1 ++ es2) = total_until c t es1 + total_until c t es2.
Proof.
  induction es1 as [| e es1 IH]; cbn [app total_until]; [reflexivity |].
  rewrite IH. lia.
Qed.

(** Sorted events split at any instant into those at or before it and
    those after it. *)
Lemma sorted_split (t : datetime) (o : list Event.t) :
  Forall timed_event o -> StronglySorted event_le o ->
  exists pre post,
    o = pre ++ post /\
    Forall (fun e => exists u, Event.time e = Some u /\ u <= t) pre /\
    Forall (fun e => exists u, Event.time e = Some u /\ t < u) post.
Proof.
  induction o as [| x o IH]; intros Htimed Hsorted.
  - exists [], []. repeat split; constructor.
  - apply Forall_cons_iff in Htimed as [Hx Htimed].
    apply StronglySorted_inv in Hsorted as [Hsorted Hall].
    unfold timed_event in Hx. destruct (Event.time x) as [u |] eqn:Hu; [| contradiction].
    destruct (Z.le_gt_cases u t) as [Hle | Hgt].
    + destruct (IH Htimed Hsorted) as (pre & post & -> & Hpre & Hpost).
      exists (x :: pre), post. split; [reflexivity |]. split; [| exact Hpost].
      constructor; [exists u; split; [exact Hu | exact Hle] | exact Hpre].
    + exists [], (x :: o). split; [reflexivity |]. split; [constructor |].
      constructor; [exists u; split; [exact Hu | lia] |].
      rewrite Forall_forall in *. intros y Hy. specialize (Hall y Hy).
      unfold event_le in Hall. rewrite Hu in Hall.
      destruct (Event.time y) as [v |]; [| contradiction]. exists v. split; [reflexivity | lia].
Qed.

Lemma sorted_middle (pre post : list Event.t) (e : Event.t) :
  StronglySorted event_le (pre ++ e :: post) ->
  Forall (fun x => event_le x e) pre /\ Forall (event_le e) post.
Proof.
  induction pre as [| x pre IH]; cbn [app]; intros H.
  - apply StronglySorted_inv in H as [_ Hall]. split; [constructor | exact Hall].
  - apply StronglySorted_inv in H as [Hsorted Hall].
    destruct (IH Hsorted) as [Hpre Hpost]. split; [| exact Hpost].
    constructor; [| exact Hpre].
    rewrite Forall_forall in Hall. apply Hall. apply in_or_app. right. left. reflexivity.
Qed.

Lemma signed_sign (e : Event.t) :
  whole_event c e ->
  (Event.type e = Event.START -> 0 <= signed c e) /\
  (0 < signed c e -> Event.type e = Event.START).
Proof.
  intros Hwhole.
  destruct (whole_event_report e Hwhole) as (r & s & f & w & Hr & _ & _ & Hw & _ & Hpos).
  destruct Hwhole as (_ & Htype & _).
  unfold signed, weight. rewrite Hr, Hw. unfold Event.START, Event.FINISH in *.
  split; intros H; destruct Htype as [Ht | Ht]; rewrite Ht in *; lia.
Qed.

(** After an event that raised the count, the events of the same instant
    only raise it further. *)
Lemma total_until_after_start (e : Event.t) (t : datetime) (post : list Event.t) :
  Event.time e = Some t -> Event.type e = Event.START ->
  Forall (whole_event c) post -> Forall (event_le e) post ->
  0 <= total_until c t post.
Proof.
  intros Ht Htype Hwhole Hle.
  induction post as [| y post IH]; [cbn; lia |].
  apply Forall_cons_iff in Hwhole as [Hy Hwhole].
  apply Forall_cons_iff in Hle as [Hey Hle].
  specialize (IH Hwhole Hle). cbn [total_until].
  unfold event_le in Hey. rewrite Ht in Hey.
  destruct (Event.time y) as [u |]; [| contradiction].
  destruct (Z.leb_spec u t) as [Hut | Hut]; [| lia].
  assert (Hstart : Event.type y = Event.START).
  { destruct Hy as (_ & [Hs | Hf] & _); [exact Hs |].
    rewrite Htype, Hf in Hey. unfold Event.START, Event.FINISH in Hey. lia. }
  pose proof (proj1 (signed_sign y Hy) Hstart). lia.
Qed.

End IntSweep.

(** The answer of a sweep in whole numbers is the peak of the load. *)
Lemma sweep_peak_load (c : Processor.class) (self : TimelineReport) :
  forallb (whole_child c) (children self) = true ->
  exists n,
    fst (max_parallel c self) = Ok (PInt n) /\
    (forall t, load c t (reports_of (children self)) <= n) /\
    (n = 0 \/ exists t, load c t (reports_of (children self)) = n).
Proof.
  intros Hwhole.
  destruct (events_of_whole c _ Hwhole) as [Hevents Hall].
  assert (Htimed : Forall timed_event (report_events (children self))).
  { apply Forall_impl with (P := whole_event c); [intros e He; exact (proj1 He) | exact Hall]. }
  destruct (sorted_events _ Htimed) as (o & Ho & Hperm & Hsorted).
  assert (Hall_o : Forall (whole_event c) o) by exact (Permutation_Forall Hperm Hall).
  assert (Htimed_o : Forall timed_event o) by exact (Permutation_Forall Hperm Htimed).
  assert (Hload : forall t, load c t (reports_of (children self)) = total_until c t o).
  { intros t. rewrite <- (total_until_report_events c t _ Hwhole).
    apply total_until_perm. exact Hperm. }
  exists (peak (map (signed c) o) 0 0).
  assert (Hupper : forall t, total_until c t o <= peak (map (signed c) o) 0 0).
  { intros t. destruct (sorted_split t o Htimed_o Hsorted) as (pre & post & -> & Hpre & Hpost).
    rewrite total_until_app, (total_until_early c t pre Hpre), (total_until_late c t post Hpost).
    rewrite map_app.
    pose proof (peak_ge_prefix (map (signed c) pre) (map (signed c) post) 0 0 ltac:(lia)).
    lia. }
  split; [| split].
  - unfold max_parallel, _walk, seq, lift, get_children, ret, Processor.new.
    rewrite Hevents, Ho. rewrite (process_all_whole c o 0 0 Hall_o). reflexivity.
  - intros t. rewrite Hload. apply Hupper.
  - destruct (peak_attained c o 0 0 ltac:(lia)) as [Hzero | (pre & e & post & -> & Hpos & Hpeak)].
    + left. exact Hzero.
    + right.
      assert (He : whole_event c e).
      { rewrite Forall_forall in Hall_o. apply Hall_o. apply in_or_app. right. left. reflexivity. }
      destruct He as (Htime & He').
      unfold timed_event in Htime. destruct (Event.time e) as [t |] eqn:Ht; [| contradiction].
      exists t. rewrite Hload. apply Z.le_antisymm; [apply Hupper |].
      rewrite Hpeak.
      destruct (sorted_middle pre post e Hsorted) as [Hpre Hpost].
      assert (Hstart : Event.type e = Event.START).
      { apply (signed_sign c e); [| exact Hpos]. split; [unfold timed_event; rewrite Ht; discriminate | exact He']. }
      apply Forall_app in Hall_o as [_ Hall_post].
      apply Forall_cons_iff in Hall_post as [_ Hall_post].
      pose proof (total_until_after_start c e t post Ht Hstart Hall_post Hpost) as Hafter.
      rewrite total_until_app. cbn [total_until]. rewrite Ht, Z.leb_refl.
      rewrite (total_until_early c t pre).
      * lia.
      * apply Forall_impl with (P := fun x => event_le x e); [| exact Hpre].
        intros x Hx. unfold event_le in Hx. rewrite Ht in Hx.
        destruct (Event.time x) as [u |]; [| contradiction]. exists u. split; [reflexivity | lia].
Qed.



Lemma reports_of_perm (cs cs' : list child) :
  Permutation cs cs' -> Permutation (reports_of cs) (reports_of cs').
Proof.
  induction 1 as [| x l l' _ IH | x y l | l l' l'' _ IH1 _ IH2].
  - constructor.
  - destruct x; cbn [reports_of]; [apply perm_skip |]; exact IH.
  - destruct x, y; cbn [reports_of]; try reflexivity. apply perm_swap.
  - exact (Permutation_trans IH1 IH2).
Qed.

Lemma load_perm (c : Processor.class) (t : datetime) (rs rs' : list TimedResourceReport) :
  Permutation rs rs' -> load c t rs = load c t rs'.
Proof. induction 1; cbn [load]; lia. Qed.

Lemma forallb_perm {A : Type} (f : A -> bool) (l l' : list A) :
  Permutation l l' -> forallb f l = true -> forallb f l' = true.
Proof.
  intros Hperm H. rewrite forallb_forall in *. intros x Hx.
  apply H. exact (Permutation_in _ (Permutation_sym Hperm) Hx).
Qed.

Lemma load_bounds (c : Processor.class) (t : datetime) (cs : list child) :
  forallb (whole_child c) cs = true ->
  0 <= load c t (reports_of cs) <= total (map (weight c) (reports_of cs)).
Proof.
  induction cs as [| [r | d] cs IH]; cbn [forallb whole_child]; intros H.
  - cbn. lia.
  - apply andb_prop in H as [Hr Hcs]. specialize (IH Hcs).
    cbn [reports_of load map]. unfold total in *. cbn [fold_right].
    assert (Hw : 0 <= weight c r).
    { unfold whole_report, weight in *.
      destruct (start_time r); [| discriminate Hr].
      destruct (finish_time r); [| discriminate Hr].
      destruct (int_unit c r); [| discriminate Hr].
      apply andb_prop in Hr as [_ Hr]. apply Z.leb_le in Hr. exact Hr. }
    destruct (runs_at t r); lia.
  - discriminate H.
Qed.

(** X1: on a timeline of reports with both instants set, no start after
    its finish, and units that are ints and not negative, a query returns
    the peak load: an int, not negative, that no instant's load exceeds,
    and that is [0] or the load at some instant; the load at an instant
    [t] adds the units of the reports with [start <= t < finish]. *)
Theorem max_parallel_is_peak_load (c : Processor.class) (self : TimelineReport) :
  forallb (whole_child c) (children self) = true ->
  exists n,
    fst (max_parallel c self) = Ok (PInt n) /\
    0 <= n /\
    (forall t, load c t (reports_of (children self)) <= n) /\
    (n = 0 \/ exists t, load c t (reports_of (children self)) = n).
Proof.
  intros Hwhole.
  destruct (sweep_peak_load c self Hwhole) as (n & Hn & Hup & Hat).
  exists n. split; [exact Hn |]. split; [| split; assumption].
  destruct Hat as [-> | (t & <-)]; [lia |].
  apply (load_bounds c t _ Hwhole).
Qed.

Lemma max_parallel_is_peak_load_witness :
  exists n,
    fst (max_parallel_cpus
           (timeline_of [Report (report_at (PInt 2) (PInt 0) 0 10);
                         Report (report_at (PInt 3) (PInt 0) 5 15)]
                        (mkTimedReport None None))) = Ok (PInt n) /\
    (forall t, load Processor.MaxParallelCPUsProcessor t
                 [report_at (PInt 2) (PInt 0) 0 10; report_at (PInt 3) (PInt 0) 5 15] <= n).
Proof.
  destruct (max_parallel_is_peak_load Processor.MaxParallelCPUsProcessor
              (timeline_of [Report (report_at (PInt 2) (PInt 0) 0 10);
                            Report (report_at (PInt 3) (PInt 0) 5 15)]
                           (mkTimedReport None None)) eq_refl) as (n & Hn & _ & Hupper & _).
  exists n. split; [exact Hn | exact Hupper].
Defined.


(** X2: the answer of a query does not depend on the order in which the
    reports were added, nor on the span the timeline holds: two timelines
    whose children are the same whole reports in another order give the
    same answer. *)
Theorem max_parallel_order_free (c : Processor.class) (self self' : TimelineReport) :
  forallb (whole_child c) (children self) = true ->
  Permutation (children self) (children self') ->
  fst (max_parallel c self) = fst (max_parallel c self').
Proof.
  intros Hwhole Hperm.
  pose proof (forallb_perm _ _ _ Hperm Hwhole) as Hwhole'.
  destruct (sweep_peak_load c self Hwhole) as (n & -> & Hup & Hat).
  destruct (sweep_peak_load c self' Hwhole') as (n' & -> & Hup' & Hat').
  assert (Hload : forall t, load c t (reports_of (children self))
                            = load c t (reports_of (children self'))).
  { intros t. apply load_perm, reports_of_perm, Hperm. }
  assert (Hnn : 0 <= n).
  { destruct Hat as [-> | (t & <-)]; [lia | apply (load_bounds c t _ Hwhole)]. }
  assert (Hnn' : 0 <= n').
  { destruct Hat' as [-> | (t & <-)]; [lia | apply (load_bounds c t _ Hwhole')]. }
  f_equal. f_equal. apply Z.le_antisymm.
  - destruct Hat as [-> | (t & <-)]; [exact Hnn' |]. rewrite Hload. apply Hup'.
  - destruct Hat' as [-> | (t & <-)]; [exact Hnn |]. rewrite <- Hload. apply Hup.
Qed.

Lemma max_parallel_order_free_witness :
  fst (max_parallel_tasks
         (timeline_of [Report (report_at (PInt 1) (PInt 1) 0 10);
                       Report (report_at (PInt 1) (PInt 1) 5 15)]
                      (mkTimedReport None None)))
  = fst (max_parallel_tasks
           (timeline_of [Report (report_at (PInt 1) (PInt 1) 5 15);
                         Report (report_at (PInt 1) (PInt 1) 0 10)]
                        (mkTimedReport (Some 0) (Some 15)))).
Proof.
  apply (max_parallel_order_free Processor.MaxParallelCountProcessor
           (timeline_of [Report (report_at (PInt 1) (PInt 1) 0 10);
                         Report (report_at (PInt 1) (PInt 1) 5 15)]
                        (mkTimedReport None None))
           (timeline_of [Report (report_at (PInt 1) (PInt 1) 5 15);
                         Report (report_at (PInt 1) (PInt 1) 0 10)]
                        (mkTimedReport (Some 0) (Some 15)))
           eq_refl).
  apply perm_swap.
Defined.

Lemma weight_count (rs : list TimedResourceReport) :
  total (map (weight Processor.MaxParallelCountProcessor) rs) = Z.of_nat (List.length rs).
Proof.
  unfold total. induction rs as [| r rs IH]; [reflexivity |].
  cbn [map fold_right List.length]. rewrite IH. unfold weight, int_unit. lia.
Qed.

Lemma reports_of_length (cs : list child) :
  forallb is_report cs = true -> List.length (reports_of cs) = List.length cs.
Proof.
  induction cs as [| [r | d] cs IH]; cbn [forallb is_report andb]; intros H;
    [reflexivity | | discriminate H].
  cbn [reports_of List.length]. rewrite (IH H). reflexivity.
Qed.

Lemma whole_child_is_report (c : Processor.class) (cs : list child) :
  forallb (whole_child c) cs = true -> forallb is_report cs = true.
Proof.
  induction cs as [| [r | d] cs IH]; cbn [forallb whole_child is_report andb]; intros H;
    [reflexivity | | discriminate H].
  apply andb_prop in H as [_ H]. exact (IH H).
Qed.

(** X3: on a timeline of reports with both instants set and no start after
    its finish, [max_parallel_tasks] returns an int between [0] and
    [total_tasks]; it is at least [1] as soon as one report starts before
    it finishes. *)
Theorem max_parallel_tasks_bounds (self : TimelineReport) :
  forallb (whole_child Processor.MaxParallelCountProcessor) (children self) = true ->
  exists n count,
    fst (max_parallel_tasks self) = Ok (PInt n) /\
    fst (total_tasks self) = Ok count /\
    0 <= n <= count /\
    (forall r s f, In (Report r) (children self) ->
       start_time r = Some s -> finish_time r = Some f -> s < f -> 1 <= n).
Proof.
  intros Hwhole. unfold max_parallel_tasks.
  destruct (sweep_peak_load _ self Hwhole) as (n & -> & Hup & Hat).
  exists n, (Z.of_nat (List.length (children self))).
  split; [reflexivity |]. split; [reflexivity |].
  assert (Hbound : forall t, 0 <= load Processor.MaxParallelCountProcessor t
                                   (reports_of (children self))
                             <= Z.of_nat (List.length (children self))).
  { intros t. rewrite <- (reports_of_length _ (whole_child_is_report _ _ Hwhole)).
    rewrite <- weight_count. apply load_bounds. exact Hwhole. }
  split.
  - destruct Hat as [-> | (t & <-)]; [split; lia | apply Hbound].
  - intros r s f Hin Hs Hf Hsf.
    apply Z.le_trans with (load Processor.MaxParallelCountProcessor s
                             (reports_of (children self))); [| apply Hup].
    clear Hup Hat Hbound. revert Hwhole Hin.
    induction (children self) as [| [r0 | d] cs IH]; cbn [forallb whole_child In];
      intros Hwhole Hin; [contradiction | | discriminate Hwhole].
    apply andb_prop in Hwhole as [Hr0 Hcs].
    pose proof (load_bounds _ s cs Hcs) as [Hnn _].
    cbn [reports_of load]. destruct Hin as [[= ->] | Hin].
    + unfold runs_at. rewrite Hs, Hf.
      replace (s <=? s) with true by (symmetry; apply Z.leb_le; lia).
      replace (s <? f) with true by (symmetry; apply Z.ltb_lt; lia).
      cbn [andb]. unfold weight, int_unit. lia.
    + specialize (IH Hcs Hin).
      assert (0 <= weight Processor.MaxParallelCountProcessor r0)
        by (unfold weight, int_unit; lia).
      destruct (runs_at s r0); lia.
Qed.

Lemma max_parallel_tasks_bounds_witness :
  exists n count,
    fst (max_parallel_tasks
           (timeline_of [Report (report_at (PInt 1) (PInt 1) 0 10);
                         Report (report_at (PInt 1) (PInt 1) 5 15);
                         Report (report_at (PInt 1) (PInt 1) 20 20)]
                        (mkTimedReport None None))) = Ok (PInt n) /\
    count = 3 /\ 1 <= n <= count.
Proof.
  destruct (max_parallel_tasks_bounds
              (timeline_of [Report (report_at (PInt 1) (PInt 1) 0 10);
                            Report (report_at (PInt 1) (PInt 1) 5 15);
                            Report (report_at (PInt 1) (PInt 1) 20 20)]
                           (mkTimedReport None None)) eq_refl)
    as (n & count & Hn & Hcount & Hbounds & Hlasts).
  exists n, count. split; [exact Hn |]. split.
  - cbn in Hcount. injection Hcount as <-. reflexivity.
  - split; [| apply Hbounds].
    apply (Hlasts (report_at (PInt 1) (PInt 1) 0 10) 0 10);
      [left; reflexivity | reflexivity | reflexivity | lia].
Defined.

(** ** Reports that are not finished *)

Lemma key_lt_same (b : bool) (x y : Event.t) :
  is_timed x = b -> is_timed y = b ->
  exists r, Event.key_lt (Event.key y) (Event.key x) = Ok r.
Proof.
  unfold is_timed, Event.key_lt, Event.key. cbn [fst snd].
  destruct (Event.time x), (Event.time y); intros <-; try discriminate; intros _;
    eexists; reflexivity.
Qed.

Lemma key_lt_mixed (x y : Event.t) :
  is_timed x = negb (is_timed y) ->
  Event.key_lt (Event.key y) (Event.key x) = Raise TypeError.
Proof.
  unfold is_timed, Event.key_lt, Event.key. cbn [fst snd].
  destruct (Event.time x), (Event.time y); try discriminate; reflexivity.
Qed.

Lemma insert_same (b : bool) (x : Event.t) (l : list Event.t) :
  is_timed x = b -> Forall (fun e => is_timed e = b) l ->
  exists s, insert Event.key Event.key_lt x l = Ok s /\ Permutation (x :: l) s.
Proof.
  intros Hx. induction 1 as [| y l Hy _ IH]; cbn [insert].
  - exists [x]. split; reflexivity.
  - destruct (key_lt_same b x y Hx Hy) as ([] & ->); cbn [bind].
    + destruct IH as (s & -> & Hperm). cbn [bind]. exists (y :: s).
      split; [reflexivity |]. rewrite perm_swap. apply perm_skip. exact Hperm.
    + exists (x :: y :: l). split; reflexivity.
Qed.

(** Sorting events raises [TypeError] when the time of one is set and the
    time of another is not, and returns otherwise. *)
Lemma sorted_events_cases (es : list Event.t) :
  (exists b o, Forall (fun e => is_timed e = b) es /\
               sorted Event.key Event.key_lt es = Ok o /\ Permutation es o) \/
  ((exists x y, In x es /\ In y es /\ is_timed x = true /\ is_timed y = false) /\
   sorted Event.key Event.key_lt es = Raise TypeError).
Proof.
  induction es as [| x es IH]; cbn [sorted].
  - left. exists true, []. repeat split; constructor.
  - destruct IH as [(b & o & Hall & -> & Hperm) | ((y & z & Hy & Hz & Hty & Htz) & ->)];
      cbn [bind].
    + destruct es as [| y es'].
      * apply Permutation_nil in Hperm. subst o. left.
        exists (is_timed x), [x]. repeat split; repeat constructor.
      * destruct (Bool.bool_dec (is_timed x) b) as [Hx | Hx].
        -- left. assert (Hall_o : Forall (fun e => is_timed e = b) o)
             by exact (Permutation_Forall Hperm Hall).
           destruct (insert_same b x o Hx Hall_o) as (s & Hs & Hperm').
           exists b, s. split; [constructor; assumption |]. split; [exact Hs |].
           rewrite <- Hperm'. apply perm_skip. exact Hperm.
        -- right.
           assert (Hneg : is_timed x = negb b) by (destruct (is_timed x), b; cbn; congruence).
           split.
           ++ apply Forall_cons_iff in Hall as [Hy _].
              destruct b; cbn [negb] in Hneg.
              ** exists y, x. repeat split; [right; left | left | |]; auto.
              ** exists x, y. repeat split; [left | right; left | |]; auto.
           ++ destruct o as [| z o'].
              ** apply Permutation_sym, Permutation_nil in Hperm. discriminate Hperm.
              ** cbn [insert].
                 assert (Hz : is_timed z = b).
                 { assert (Hall_o : Forall (fun e => is_timed e = b) (z :: o'))
                     by exact (Permutation_Forall Hperm Hall).
                   apply Forall_cons_iff in Hall_o as [Hz _]. exact Hz. }
                 rewrite key_lt_mixed; [reflexivity |]. rewrite Hz. exact Hneg.
    + right. split; [| reflexivity].
      exists y, z. repeat split; try (right; assumption); assumption.
Qed.

Lemma events_of_reports (cs : list child) :
  forallb is_report cs = true -> events_of cs = Ok (report_events cs).
Proof.
  induction cs as [| [r | d] cs IH]; cbn [forallb is_report andb]; intros H;
    [reflexivity | | discriminate H].
  cbn [events_of report_events Event.start_event Event.finish_event getattr bind].
  rewrite (IH H). reflexivity.
Qed.

Lemma report_events_in (cs : list child) (r : TimedResourceReport) :
  In (Report r) cs ->
  In (Event.mk (start_time r) Event.START (Report r)) (report_events cs) /\
  In (Event.mk (finish_time r) Event.FINISH (Report r)) (report_events cs).
Proof.
  induction cs as [| [r0 | d] cs IH]; cbn [In report_events].
  - contradiction.
  - intros [[= ->] | Hin].
    + split; [left | right; left]; reflexivity.
    + destruct (IH Hin). split; right; right; assumption.
  - intros [Hd | Hin]; [discriminate Hd | exact (IH Hin)].
Qed.

(** X4: on a timeline of reports where an instant of one report is set
    and an instant of a report, the same or another, is not, each of the
    three queries raises [TypeError]: the events cannot be sorted. *)
Theorem max_parallel_unfinished (c : Processor.class) (self : TimelineReport)
    (r1 r2 : TimedResourceReport) :
  forallb is_report (children self) = true ->
  In (Report r1) (children self) -> some_set r1 = true ->
  In (Report r2) (children self) -> some_unset r2 = true ->
  fst (max_parallel c self) = Raise TypeError.
Proof.
  intros Hreports Hin1 Hset Hin2 Hunset.
  unfold max_parallel, _walk, seq, lift, get_children, ret.
  rewrite (events_of_reports _ Hreports).
  destruct (sorted_events_cases (report_events (children self)))
    as [(b & o & Hall & _ & _) | (_ & ->)]; [| reflexivity].
  exfalso. rewrite Forall_forall in Hall.
  destruct (report_events_in _ _ Hin1) as [Hs1 Hf1].
  destruct (report_events_in _ _ Hin2) as [Hs2 Hf2].
  apply Hall in Hs1, Hf1, Hs2, Hf2. unfold is_timed in *. cbn [Event.time] in *.
  unfold some_set, some_unset in *.
  destruct (start_time r1), (finish_time r1), (start_time r2), (finish_time r2), b;
    discriminate.
Qed.

Lemma max_parallel_unfinished_witness :
  fst (max_parallel_tasks
         (timeline_of [Report (report_at (PInt 1) (PInt 1) 0 10);
                       Report (mkTimedResourceReport (PInt 1) (PInt 1)
                                 (mkTimedReport (Some 5) None))]
                      (mkTimedReport (Some 0) (Some 10))))
  = Raise TypeError.
Proof.
  apply (max_parallel_unfinished Processor.MaxParallelCountProcessor
           (timeline_of [Report (report_at (PInt 1) (PInt 1) 0 10);
                         Report (mkTimedResourceReport (PInt 1) (PInt 1)
                                   (mkTimedReport (Some 5) None))]
                        (mkTimedReport (Some 0) (Some 10)))
           (report_at (PInt 1) (PInt 1) 0 10)
           (mkTimedResourceReport (PInt 1) (PInt 1) (mkTimedReport (Some 5) None))
           eq_refl).
  - left. reflexivity.
  - reflexivity.
  - right. left. reflexivity.
  - reflexivity.
Defined.

(** ** Timelines built by [add_report] *)

Lemma starts_of_app (rs1 rs2 : list TimedResourceReport) :
  starts_of (rs1 ++ rs2) = starts_of rs1 ++ starts_of rs2.
Proof.
  unfold starts_of. induction rs1 as [| r rs1 IH]; cbn [app map set_times]; [reflexivity |].
  destruct (start_time r); cbn [app]; rewrite IH; reflexivity.
Qed.

Lemma finishes_of_app (rs1 rs2 : list TimedResourceReport) :
  finishes_of (rs1 ++ rs2) = finishes_of rs1 ++ finishes_of rs2.
Proof.
  unfold finishes_of. induction rs1 as [| r rs1 IH]; cbn [app map set_times]; [reflexivity |].
  destruct (finish_time r); cbn [app]; rewrite IH; reflexivity.
Qed.

Lemma reports_of_snoc (cs : list child) (r : TimedResourceReport) :
  reports_of (cs ++ [Report r]) = reports_of cs ++ [r].
Proof.
  induction cs as [| [r0 | d] cs IH]; cbn [app reports_of]; [reflexivity | |];
    rewrite IH; reflexivity.
Qed.

(** One [add_report] on a timeline of reports whose span is derived:
    the report is appended and the span is derived again. *)
Lemma add_report_derived (self : TimelineReport) (r : TimedResourceReport) :
  forallb is_report (children self) = true -> span_derived self ->
  let self' := snd (add_report (Report r) self) in
  fst (add_report (Report r) self) = Ok tt /\
  children self' = children self ++ [Report r] /\
  forallb is_report (children self') = true /\
  span_derived self'.
Proof.
  intros Hreports [Hstart Hfinish]. cbv zeta.
  unfold add_report, seq, get_children, set_children. cbn [fst snd].
  set (self0 := {| children := children self ++ [Report r]; span := self |}).
  assert (H0 : forallb is_report (children self0) = true).
  { unfold self0. cbn [children]. rewrite forallb_app, Hreports. reflexivity. }
  destruct (recalculate_times_spec self0 H0) as (Hok & Hch & Hs & Hf).
  destruct (_recalculate_times self0) as [[[] | e] self'] eqn:Hrun;
    cbn [fst snd] in *; [| discriminate Hok].
  split; [reflexivity |]. split; [exact Hch |].
  split; [rewrite Hch; exact H0 |].
  unfold span_derived, least_of, greatest_of. rewrite Hch.
  unfold self0 in Hs, Hf |- *. cbn [children span] in *.
  rewrite reports_of_snoc in Hs, Hf |- *.
  rewrite starts_of_app in Hs |- *. rewrite finishes_of_app in Hf |- *.
  unfold least_of, greatest_of in Hstart, Hfinish.
  split.
  - destruct (starts_of (reports_of (children self)) ++ starts_of [r]) eqn:Hnew;
      [| exact Hs].
    rewrite Hs. apply app_eq_nil in Hnew as [Hold _].
    rewrite Hold in Hstart. exact Hstart.
  - destruct (finishes_of (reports_of (children self)) ++ finishes_of [r]) eqn:Hnew;
      [| exact Hf].
    rewrite Hf. apply app_eq_nil in Hnew as [Hold _].
    rewrite Hold in Hfinish. exact Hfinish.
Qed.

Lemma add_reports_derived (rs : list TimedResourceReport) : forall self,
  forallb is_report (children self) = true -> span_derived self ->
  let self' := snd (add_reports (map Report rs) self) in
  fst (add_reports (map Report rs) self) = Ok tt /\
  children self' = children self ++ map Report rs /\
  forallb is_report (children self') = true /\
  span_derived self'.
Proof.
  induction rs as [| r rs IH]; intros self Hreports Hspan; cbv zeta; cbn [map add_reports].
  - cbn [ret fst snd]. rewrite app_nil_r.
    split; [reflexivity |]. split; [reflexivity |]. split; assumption.
  - destruct (add_report_derived self r Hreports Hspan) as (Hok & Hch & Hrep & Hder).
    unfold seq. destruct (add_report (Report r) self) as [[[] | e] self1];
      cbn [fst snd] in *; [| discriminate Hok].
    destruct (IH self1 Hrep Hder) as (Hok' & Hch' & Hrep' & Hder').
    split; [exact Hok' |]. split; [| split; assumption].
    rewrite Hch', Hch, <- app_assoc. reflexivity.
Qed.

Lemma reports_of_map (rs : list TimedResourceReport) : reports_of (map Report rs) = rs.
Proof. induction rs as [| r rs IH]; cbn [map reports_of]; [| rewrite IH]; reflexivity. Qed.

(** Reports added to a new timeline: the run returns, the children are
    the reports and the span is derived from them. *)
Lemma add_reports_new (rs : list TimedResourceReport) :
  let self := snd (add_reports (map Report rs) TimelineReport_new) in
  fst (add_reports (map Report rs) TimelineReport_new) = Ok tt /\
  children self = map Report rs /\
  least_of (start_time self) (starts_of rs) /\
  greatest_of (finish_time self) (finishes_of rs).
Proof.
  cbv zeta.
  destruct (add_reports_derived rs TimelineReport_new eq_refl)
    as (Hok & Hch & _ & Hstart & Hfinish).
  { split; reflexivity. }
  cbn [TimelineReport_new children app] in Hch.
  rewrite Hch, reports_of_map in Hstart, Hfinish.
  split; [exact Hok |]. split; [exact Hch |]. split; assumption.
Qed.

(** X5: reports added one after another to a new timeline all go in: the
    run does not raise, the children are the reports in the order of the
    calls, [total_tasks] is their number, and the span runs from the least
    start that is set to the greatest finish that is set, an end staying
    [None] while no report sets it. *)
Theorem add_reports_builds (rs : list TimedResourceReport) :
  let self := snd (add_reports (map Report rs) TimelineReport_new) in
  fst (add_reports (map Report rs) TimelineReport_new) = Ok tt /\
  children self = map Report rs /\
  fst (total_tasks self) = Ok (Z.of_nat (List.length rs)) /\
  least_of (start_time self) (starts_of rs) /\
  greatest_of (finish_time self) (finishes_of rs).
Proof.
  cbv zeta. destruct (add_reports_new rs) as (Hok & Hch & Hstart & Hfinish).
  cbv zeta in Hch, Hstart, Hfinish.
  split; [exact Hok |]. split; [exact Hch |]. split; [| split; assumption].
  unfold total_tasks, seq, get_children, ret. cbn [fst]. rewrite Hch, length_map.
  reflexivity.
Qed.

Lemma set_times_perm (l l' : list (option datetime)) :
  Permutation l l' -> Permutation (set_times l) (set_times l').
Proof.
  induction 1 as [| x l l' _ IH | x y l | l l' l'' _ IH1 _ IH2].
  - constructor.
  - destruct x; cbn [set_times]; [apply perm_skip |]; exact IH.
  - destruct x, y; cbn [set_times]; try reflexivity. apply perm_swap.
  - exact (Permutation_trans IH1 IH2).
Qed.

Lemma least_of_perm (t t' : option datetime) (l l' : list datetime) :
  Permutation l l' -> least_of t l -> least_of t' l' -> t = t'.
Proof.
  intros Hperm. unfold least_of.
  destruct l as [| x l], l' as [| x' l'].
  - congruence.
  - apply Permutation_nil in Hperm. discriminate Hperm.
  - apply Permutation_sym, Permutation_nil in Hperm. discriminate Hperm.
  - intros (m & -> & Hin & Hall) (m' & -> & Hin' & Hall'). f_equal.
    rewrite Forall_forall in Hall, Hall'.
    apply Z.le_antisymm.
    + apply Hall. exact (Permutation_in _ (Permutation_sym Hperm) Hin').
    + apply Hall'. exact (Permutation_in _ Hperm Hin).
Qed.

Lemma greatest_of_perm (t t' : option datetime) (l l' : list datetime) :
  Permutation l l' -> greatest_of t l -> greatest_of t' l' -> t = t'.
Proof.
  intros Hperm. unfold greatest_of.
  destruct l as [| x l], l' as [| x' l'].
  - congruence.
  - apply Permutation_nil in Hperm. discriminate Hperm.
  - apply Permutation_sym, Permutation_nil in Hperm. discriminate Hperm.
  - intros (m & -> & Hin & Hall) (m' & -> & Hin' & Hall'). f_equal.
    rewrite Forall_forall in Hall, Hall'.
    apply Z.le_antisymm.
    + apply Hall'. exact (Permutation_in _ Hperm Hin).
    + apply Hall. exact (Permutation_in _ (Permutation_sym Hperm) Hin').
Qed.

(** X6: the span of a timeline built by [add_report] does not depend on
    the order of the calls. *)
Theorem add_reports_span_order_free (rs rs' : list TimedResourceReport) :
  Permutation rs rs' ->
  span (snd (add_reports (map Report rs) TimelineReport_new))
  = span (snd (add_reports (map Report rs') TimelineReport_new)).
Proof.
  intros Hperm.
  destruct (add_reports_new rs) as (_ & _ & Hs & Hf).
  destruct (add_reports_new rs') as (_ & _ & Hs' & Hf').
  cbv zeta in *.
  assert (Hstarts : Permutation (starts_of rs) (starts_of rs')).
  { unfold starts_of. apply set_times_perm, Permutation_map, Hperm. }
  assert (Hfinishes : Permutation (finishes_of rs) (finishes_of rs')).
  { unfold finishes_of. apply set_times_perm, Permutation_map, Hperm. }
  pose proof (least_of_perm _ _ _ _ Hstarts Hs Hs') as H1.
  pose proof (greatest_of_perm _ _ _ _ Hfinishes Hf Hf') as H2.
  destruct (span (snd (add_reports (map Report rs) TimelineReport_new))) as [s f].
  destruct (span (snd (add_reports (map Report rs') TimelineReport_new))) as [s' f'].
  cbn [start_time finish_time] in H1, H2. congruence.
Qed.

Lemma add_reports_span_order_free_witness :
  span (snd (add_reports (map Report [report_at (PInt 1) (PInt 1) 5 9;
                                      report_at (PInt 1) (PInt 1) 2 7])
                         TimelineReport_new))
  = span (snd (add_reports (map Report [report_at (PInt 1) (PInt 1) 2 7;
                                        report_at (PInt 1) (PInt 1) 5 9])
                           TimelineReport_new)).
Proof.
  apply add_reports_span_order_free. apply perm_swap.
Defined.

Lemma elapsed_seconds_ordered (s f : datetime) :
  s <= f ->
  elapsed_seconds {| start_time := Some s; finish_time := Some f |}
  = Ok (PFloat (Timedelta.total_seconds (f - s))).
Proof.
  intros Hsf. unfold elapsed_seconds. cbn [start_time finish_time].
  rewrite (ltb_zero_has_sign _ (total_seconds_nonneg (f - s) ltac:(lia))). reflexivity.
Qed.

(** X7: a timeline built by [add_report] from at least one report, all
    with both instants set and no start after its finish, has a span that
    starts at or before every child and finishes at or after every child,
    so that [elapsed_seconds] of the timeline itself returns and does not
    raise. *)
Theorem add_reports_span_valid (rs : list TimedResourceReport) :
  rs <> [] ->
  forallb (whole_report Processor.MaxParallelCountProcessor) rs = true ->
  let self := snd (add_reports (map Report rs) TimelineReport_new) in
  exists s f,
    start_time self = Some s /\ finish_time self = Some f /\ s <= f /\
    (forall r a b, In r rs -> start_time r = Some a -> finish_time r = Some b ->
       s <= a /\ b <= f) /\
    elapsed_seconds self = Ok (PFloat (Timedelta.total_seconds (f - s))).
Proof.
  intros Hne Hwhole. cbv zeta.
  destruct (add_reports_new rs) as (_ & _ & Hs & Hf). cbv zeta in Hs, Hf.
  destruct (span (snd (add_reports (map Report rs) TimelineReport_new))) as [st ft] eqn:Hspan.
  cbn [start_time finish_time] in *.
  assert (Hin_s : forall r a, In r rs -> start_time r = Some a -> In a (starts_of rs)).
  { clear. unfold starts_of. induction rs as [| r0 rs IH]; intros r a Hin Ha;
      [contradiction |]. cbn [map set_times]. destruct Hin as [-> | Hin].
    - rewrite Ha. left. reflexivity.
    - destruct (start_time r0); [right |]; exact (IH r a Hin Ha). }
  assert (Hin_f : forall r b, In r rs -> finish_time r = Some b -> In b (finishes_of rs)).
  { clear. unfold finishes_of. induction rs as [| r0 rs IH]; intros r a Hin Ha;
      [contradiction |]. cbn [map set_times]. destruct Hin as [-> | Hin].
    - rewrite Ha. left. reflexivity.
    - destruct (finish_time r0); [right |]; exact (IH r a Hin Ha). }
  destruct rs as [| r0 rs']; [contradiction |].
  pose proof Hwhole as Hwhole0. cbn [forallb] in Hwhole0.
  apply andb_prop in Hwhole0 as [Hr0 _]. unfold whole_report in Hr0.
  destruct (start_time r0) as [a0 |] eqn:Ha0; [| discriminate Hr0].
  destruct (finish_time r0) as [b0 |] eqn:Hb0; [| discriminate Hr0].
  cbn [int_unit] in Hr0. apply andb_prop in Hr0 as [Hab0 _]. apply Z.leb_le in Hab0.
  pose proof (Hin_s r0 a0 (or_introl eq_refl) Ha0) as Hina.
  pose proof (Hin_f r0 b0 (or_introl eq_refl) Hb0) as Hinb.
  unfold least_of in Hs. unfold greatest_of in Hf.
  destruct (starts_of (r0 :: rs')) as [| x l] eqn:Hstarts; [contradiction |].
  destruct (finishes_of (r0 :: rs')) as [| y l'] eqn:Hfinishes; [contradiction |].
  destruct Hs as (s & -> & _ & Hmin). destruct Hf as (f & -> & _ & Hmax).
  rewrite Forall_forall in Hmin, Hmax.
  assert (Hsf : s <= f).
  { specialize (Hmin a0 Hina). specialize (Hmax b0 Hinb). lia. }
  exists s, f. split; [reflexivity |]. split; [reflexivity |]. split; [exact Hsf |].
  split.
  - intros r a b Hin Ha Hb. split.
    + apply Hmin. exact (Hin_s r a Hin Ha).
    + apply Hmax. exact (Hin_f r b Hin Hb).
  - apply elapsed_seconds_ordered. exact Hsf.
Qed.

Lemma add_reports_span_valid_witness :
  exists s f,
    start_time (snd (add_reports (map Report [report_at (PInt 1) (PInt 1) 5 9;
                                              report_at (PInt 1) (PInt 1) 2 7])
                                 TimelineReport_new)) = Some s /\
    finish_time (snd (add_reports (map Report [report_at (PInt 1) (PInt 1) 5 9;
                                               report_at (PInt 1) (PInt 1) 2 7])
                                  TimelineReport_new)) = Some f /\
    s <= f.
Proof.
  destruct (add_reports_span_valid [report_at (PInt 1) (PInt 1) 5 9;
                                    report_at (PInt 1) (PInt 1) 2 7]
              ltac:(discriminate) eq_refl) as (s & f & Hs & Hf & Hsf & _).
  exists s, f. split; [exact Hs |]. split; [exact Hf | exact Hsf].
Defined.

(** ** ResourceParser: floats and suffixes *)

Lemma mul_float_left (x : Float.float) (factor : num) (y : num) :
  Num.mul (PFloat x) factor = Ok y -> is_float y = true.
Proof.
  unfold Num.mul, Num.arith. cbn [Num.to_float bind].
  destruct (Num.to_float factor); cbn [bind]; [intros [= <-]; reflexivity | discriminate].
Qed.

Lemma parse_items_float (items : list (string * num)) (value : string) (y : num) :
  parse_items items value = Ok y -> is_float y = true.
Proof.
  induction items as [| [suffix factor] items IH]; cbn [parse_items].
  - unfold float_of_str. destruct (Str.to_float value); [intros [= <-]; reflexivity | discriminate].
  - destruct (Str.endswith value suffix); [| exact IH].
    unfold float_of_str. destruct (Str.to_float (Str.remove value suffix)); cbn [bind];
      [apply mul_float_left | discriminate].
Qed.

(** What [parse] returns is a float, and what it raises is the
    [ValueError] on the value. *)
Lemma parse_cases (cls : ParserClass) (value : string) :
  (exists x, parse cls value = Ok (PFloat x)) \/
  parse cls value = unparseable cls value.
Proof.
  unfold parse, unparseable.
  destruct (parse_try cls value) as [y |] eqn:Htry; [left | right; reflexivity].
  unfold parse_try in Htry. destruct (suffixes cls) as [items |]; [| discriminate Htry].
  pose proof (parse_items_float _ _ _ Htry) as Hf.
  destruct y as [z | x]; [discriminate Hf |]. exists x. reflexivity.
Qed.

(** X8: [from_completion_result] returns a report exactly when the CPU
    string and the memory string both parse: the report then holds the
    parsed CPUs and the parsed memory divided by [1024], both floats, and
    the two instants of the result as they are.  Otherwise it raises the
    [ValueError] of [CPUParser] on the CPU string or, when that one
    parses, the [ValueError] of [MemoryParser] on the memory string, and
    nothing else. *)
Theorem from_completion_result_spec (result : CompletionResult) :
  match from_completion_result result with
  | Ok report =>
      exists c m,
        parse CPUParser (result_cpus result) = Ok (PFloat c) /\
        parse MemoryParser (result_memory result) = Ok (PFloat m) /\
        report = {| cpus := PFloat c;
                    ram_megabytes := PFloat (Float.div m (Float.of_Z 1024));
                    timed := {| start_time := result_start_time result;
                                finish_time := result_finish_time result |} |}
  | Raise e =>
      (e = ValueError_UnableToParse (result_cpus result) (kind CPUParser) (url CPUParser) /\
       parse CPUParser (result_cpus result) = Raise e) \/
      (e = ValueError_UnableToParse (result_memory result) (kind MemoryParser)
             (url MemoryParser) /\
       parse MemoryParser (result_memory result) = Raise e /\
       exists c, parse CPUParser (result_cpus result) = Ok (PFloat c))
  end.
Proof.
  unfold from_completion_result, parse_to_megabytes.
  destruct (parse_cases CPUParser (result_cpus result)) as [(c & Hc) | Hc]; rewrite Hc;
    cbn [bind]; [| left; split; reflexivity].
  destruct (parse_cases MemoryParser (result_memory result)) as [(m & Hm) | Hm]; rewrite Hm;
    cbn [bind].
  - exists c, m. repeat split.
  - right. split; [reflexivity |]. split; [reflexivity |]. exists c. reflexivity.
Qed.

(** ** Float weights never make a query raise *)

Section FloatSweep.

Variable c : Processor.class.

Lemma num_max_cases (a b : num) : Num.max a b = a \/ Num.max a b = b.
Proof. unfold Num.max. destruct (Num.gtb b a); [right | left]; reflexivity. Qed.

Lemma process_float (e : Event.t) (p : Processor.t) :
  float_event c e -> Processor.cls p = c ->
  reachable c (Processor.count p) -> reachable c (Processor.max p) ->
  exists p', Event_process e p = Ok p' /\ Processor.cls p' = c /\
             reachable c (Processor.count p') /\ reachable c (Processor.max p') /\
             (c <> Processor.MaxParallelCountProcessor ->
              is_float (Processor.count p') = true).
Proof.
  intros (_ & Htype & Hchild) Hcls Hcount Hmax.
  unfold float_child in Hchild.
  destruct (Event.report e) as [r | d] eqn:Hr; [| discriminate Hchild].
  destruct (start_time r); [| discriminate Hchild].
  destruct (finish_time r); [| discriminate Hchild].
  unfold Event_process, Processor.process, Processor.count_unit. rewrite Hr, Hcls.
  unfold reachable in *.
  assert (Hstep : exists k,
    (if Event.type e =? Event.START
     then u <- match c with
               | Processor.MaxParallelCountProcessor => Ok (PInt 1)
               | Processor.MaxParallelCPUsProcessor => getattr cpus (Report r)
               | Processor.MaxParallelRAMProcessor => getattr ram_megabytes (Report r)
               end ;; Num.add (Processor.count p) u
     else if Event.type e =? Event.FINISH
          then u <- match c with
                    | Processor.MaxParallelCountProcessor => Ok (PInt 1)
                    | Processor.MaxParallelCPUsProcessor => getattr cpus (Report r)
                    | Processor.MaxParallelRAMProcessor => getattr ram_megabytes (Report r)
                    end ;; Num.sub (Processor.count p) u
          else Ok (Processor.count p)) = Ok k /\
    match c with
    | Processor.MaxParallelCountProcessor => is_float k = false
    | _ => is_float k = true
    end).
  { destruct c; cbn [getattr bind].
    - destruct (Processor.count p) as [z | x]; [| discriminate Hcount].
      destruct Htype as [-> | ->]; cbn; eexists; split; reflexivity.
    - destruct (cpus r) as [z | w]; [discriminate Hchild |].
      destruct Hcount as [-> | Hcount].
      + destruct Htype as [-> | ->]; cbn; eexists; split; reflexivity.
      + destruct (Processor.count p) as [z | x]; [discriminate Hcount |].
        destruct Htype as [-> | ->]; cbn; eexists; split; reflexivity.
    - destruct (ram_megabytes r) as [z | w]; [discriminate Hchild |].
      destruct Hcount as [-> | Hcount].
      + destruct Htype as [-> | ->]; cbn; eexists; split; reflexivity.
      + destruct (Processor.count p) as [z | x]; [discriminate Hcount |].
        destruct Htype as [-> | ->]; cbn; eexists; split; reflexivity. }
  destruct Hstep as (k & -> & Hk). cbn [bind].
  eexists. split; [reflexivity |]. cbn [Processor.cls Processor.count Processor.max].
  split; [reflexivity |].
  assert (Hk' : match c with
                | Processor.MaxParallelCountProcessor => is_float k = false
                | _ => k = PInt 0 \/ is_float k = true
                end) by (destruct c; auto).
  split; [exact Hk' |]. split.
  - destruct (num_max_cases (Processor.max p) k) as [-> | ->]; assumption.
  - intros Hc. destruct c; [contradiction | |]; exact Hk.
Qed.

Lemma process_all_float (es : list Event.t) : forall p,
  Forall (float_event c) es -> Processor.cls p = c ->
  reachable c (Processor.count p) -> reachable c (Processor.max p) ->
  exists p', process_all es p = Ok p' /\ reachable c (Processor.max p').
Proof.
  induction es as [| e es IH]; intros p Hall Hcls Hcount Hmax; cbn [process_all].
  - exists p. split; [reflexivity | exact Hmax].
  - apply Forall_cons_iff in Hall as [He Hall].
    destruct (process_float e p He Hcls Hcount Hmax) as (p1 & -> & Hcls1 & Hc1 & Hm1 & _).
    cbn [bind]. exact (IH p1 Hall Hcls1 Hc1 Hm1).
Qed.

Lemma events_of_float (cs : list child) :
  forallb (float_child c) cs = true ->
  events_of cs = Ok (report_events cs) /\ Forall (float_event c) (report_events cs).
Proof.
  induction cs as [| [r | d] cs IH]; cbn [forallb]; intros H.
  - split; [reflexivity | constructor].
  - apply andb_prop in H as [Hr Hcs]. destruct (IH Hcs) as [Hev Hall].
    cbn [events_of report_events Event.start_event Event.finish_event getattr bind].
    rewrite Hev. cbn [bind]. split; [reflexivity |].
    assert (Hs : start_time r <> None /\ finish_time r <> None).
    { unfold float_child in Hr.
      destruct (start_time r); [| discriminate Hr].
      destruct (finish_time r); [| discriminate Hr]. split; discriminate. }
    constructor; [| constructor; [| exact Hall]].
    + split; [exact (proj1 Hs) |]. split; [left; reflexivity | exact Hr].
    + split; [exact (proj2 Hs) |]. split; [right; reflexivity | exact Hr].
  - discriminate H.
Qed.

End FloatSweep.

(** X9: on a timeline of reports with both instants set, [max_parallel_tasks]
    always returns an int, and [max_parallel_cpus] and
    [max_parallel_ram_megabytes] always return, the int [0] or a float,
    when the CPUs, respectively the megabytes, of every report are floats,
    as [from_completion_result] makes them: no query raises. *)
Theorem max_parallel_float_returns (c : Processor.class) (self : TimelineReport) :
  forallb (float_child c) (children self) = true ->
  exists n,
    fst (max_parallel c self) = Ok n /\
    match c with
    | Processor.MaxParallelCountProcessor => is_float n = false
    | _ => n = PInt 0 \/ is_float n = true
    end.
Proof.
  intros Hfloat.
  destruct (events_of_float c _ Hfloat) as [Hevents Hall].
  assert (Htimed : Forall timed_event (report_events (children self))).
  { apply Forall_impl with (P := float_event c); [intros e He; exact (proj1 He) | exact Hall]. }
  destruct (sorted_events _ Htimed) as (o & Ho & Hperm & _).
  assert (Hall_o : Forall (float_event c) o) by exact (Permutation_Forall Hperm Hall).
  assert (Hzero : reachable c (PInt 0)) by (destruct c; cbn; auto).
  destruct (process_all_float c o (Processor.new c) Hall_o eq_refl Hzero Hzero)
    as (p & Hp & Hmax).
  exists (Processor.max p). split; [| exact Hmax].
  unfold max_parallel, _walk, seq, lift, get_children, ret.
  rewrite Hevents, Ho, Hp. reflexivity.
Qed.

Lemma max_parallel_float_returns_witness :
  exists n,
    fst (max_parallel_cpus
           (timeline_of [Report (report_at (PFloat (Float.of_decimal 5 (-1))) (PInt 0) 0 10);
                         Report (report_at (PFloat (Float.of_Z 3)) (PInt 0) 5 15)]
                        (mkTimedReport None None))) = Ok n.
Proof.
  destruct (max_parallel_float_returns Processor.MaxParallelCPUsProcessor
              (timeline_of [Report (report_at (PFloat (Float.of_decimal 5 (-1))) (PInt 0) 0 10);
                            Report (report_at (PFloat (Float.of_Z 3)) (PInt 0) 5 15)]
                           (mkTimedReport None None)) eq_refl) as (n & Hn & _).
  exists n. exact Hn.
Defined.

(** ** The suffix tables are suffix-free *)

Lemma endswith_refl (s : string) : Str.endswith s s = true.
Proof. destruct s; cbn [Str.endswith]; rewrite String.eqb_refl; reflexivity. Qed.

Lemma endswith_app (n s : string) : Str.endswith (n ++ s) s = true.
Proof.
  induction n as [| c n IH]; cbn [append].
  - apply endswith_refl.
  - cbn [Str.endswith]. rewrite IH. destruct (String.eqb _ _); reflexivity.
Qed.

(** A string that ends [n ++ s] is an end of [s], or [s] is an end of
    it. *)
Lemma endswith_app_cases (n s s' : string) :
  Str.endswith (n ++ s) s' = true ->
  Str.endswith s s' = true \/ Str.endswith s' s = true.
Proof.
  induction n as [| c n IH]; cbn [append]; [left; assumption |].
  cbn [Str.endswith].
  destruct (String.eqb_spec (String c (n ++ s)) s') as [<- | _].
  - intros _. right. exact (endswith_app (String c n) s).
  - exact IH.
Qed.

Lemma suffix_free_split (pre post : list (string * num)) (sf : string * num) :
  suffix_free (pre ++ sf :: post) = true ->
  forall sf', In sf' pre ->
    Str.endswith (fst sf) (fst sf') = false /\ Str.endswith (fst sf') (fst sf) = false.
Proof.
  induction pre as [| x pre IH]; cbn [app suffix_free]; intros H sf' Hin; [contradiction |].
  apply andb_prop in H as [Hx Hrest]. destruct Hin as [<- | Hin].
  - rewrite forallb_forall in Hx.
    assert (Hsf : In sf (pre ++ sf :: post)) by (apply in_or_app; right; left; reflexivity).
    specialize (Hx sf Hsf).
    apply andb_prop in Hx as [H1 H2].
    apply negb_true_iff in H1, H2. split; assumption.
  - exact (IH Hrest sf' Hin).
Qed.

Lemma prefix_refl (s : string) : String.prefix s s = true.
Proof.
  induction s as [| a s IH]; cbn [String.prefix]; [reflexivity |].
  destruct (ascii_dec a a); [exact IH | contradiction].
Qed.

Lemma remove_from_skip (old s : string) :
  Str.remove_from old (String.length s) s = EmptyString.
Proof.
  induction s as [| a s IH]; cbn [Str.remove_from String.length]; [reflexivity | exact IH].
Qed.

(** Removing a suffix from a string that ends with it and holds its first
    character nowhere else leaves the string before the suffix. *)
Lemma remove_suffix (n suffix : string) :
  clear_of suffix n = true -> Str.remove (n ++ suffix) suffix = n.
Proof.
  unfold clear_of, Str.remove. destruct suffix as [| a rest]; [discriminate |].
  induction n as [| c n IH]; cbn [absent append]; intros H.
  - cbn [Str.remove_from]. rewrite prefix_refl. cbn [String.length Nat.pred].
    apply remove_from_skip.
  - apply andb_prop in H as [Hac Hn]. apply negb_true_iff in Hac.
    cbn [Str.remove_from String.prefix].
    destruct (ascii_dec a c) as [-> | _]; [rewrite Ascii.eqb_refl in Hac; discriminate Hac |].
    rewrite (IH Hn). reflexivity.
Qed.

(** X10: in a table where no suffix is the end of another, as the two
    tables of the module are, a string made of a text [n] and a suffix of
    the table is parsed with that very suffix, whatever the order of the
    table: when the first character of the suffix does not occur in [n],
    the result is [float(n)] times the factor of the suffix, or the
    [ValueError] on the whole string when [n] is not a number. *)
Theorem parse_number_with_suffix (cls : ParserClass) (items : list (string * num))
    (n suffix : string) (factor : num) :
  suffixes cls = Some items ->
  suffix_free items = true ->
  In (suffix, factor) items ->
  clear_of suffix n = true ->
  parse cls (n ++ suffix) =
  match Str.to_float n with
  | Some x =>
      match Num.to_float factor with
      | Ok y => Ok (PFloat (Float.mul x y))
      | Raise _ => unparseable cls (n ++ suffix)
      end
  | None => unparseable cls (n ++ suffix)
  end.
Proof.
  intros Hitems Hfree Hin Hclear.
  destruct (in_split _ _ Hin) as (pre & post & ->).
  assert (Hpre : ends_with_none pre (n ++ suffix) = true).
  { unfold ends_with_none. apply forallb_forall. intros sf' Hin'.
    destruct (suffix_free_split pre post (suffix, factor) Hfree sf' Hin') as [H1 H2].
    cbn [fst] in H1, H2. apply negb_true_iff.
    destruct (Str.endswith (n ++ suffix) (fst sf')) eqn:Hends; [| reflexivity].
    destruct (endswith_app_cases _ _ _ Hends); congruence. }
  unfold parse, parse_try, unparseable. rewrite Hitems.
  rewrite (parse_items_first_suffix _ _ _ _ _ Hpre (endswith_app n suffix)).
  rewrite (remove_suffix _ _ Hclear). unfold float_of_str.
  destruct (Str.to_float n) as [x |]; cbn [bind]; [| reflexivity].
  unfold Num.mul, Num.arith. cbn [Num.to_float bind].
  destruct factor as [z | y]; cbn [Num.to_float bind]; [| reflexivity].
  destruct (Float.is_infinity (Float.of_Z z)); reflexivity.
Qed.

Lemma parse_number_with_suffix_witness :
  option_map suffix_free (suffixes MemoryParser) = Some true /\
  option_map suffix_free (suffixes CPUParser) = Some true /\
  parse MemoryParser ("1.5" ++ "Gi") = Ok (PFloat (Float.of_Z 1610612736)) /\
  parse CPUParser (" 250" ++ "m") = Ok (PFloat (Float.of_decimal 25 (-2))).
Proof.
  split; [reflexivity |]. split; [reflexivity |]. split.
  - exact (parse_number_with_suffix MemoryParser _ "1.5" "Gi" (PInt (2 ^ 30))
             eq_refl eq_refl
             ltac:(cbn; tauto)
             eq_refl).
  - exact (parse_number_with_suffix CPUParser _ " 250" "m" (PFloat (Float.of_decimal 1 (-3)))
             eq_refl eq_refl (or_introl eq_refl) eq_refl).
Defined.

(** ** Reporter and write_report *)

Lemma recalculate_times_children (self : TimelineReport) :
  children (snd (_recalculate_times self)) = children self.
Proof.
  unfold _recalculate_times, seq, lift, get_children, ret, set_start_time, set_finish_time.
  destruct (mapM (getattr (fun r : TimedResourceReport => start_time r)) (children self))
    as [starts | e]; [| reflexivity].
  destruct (set_times starts) as [| x ss].
  - destruct (mapM (getattr (fun r : TimedResourceReport => finish_time r)) (children self))
      as [finishes | e]; [| reflexivity].
    destruct (set_times finishes) as [| y fs]; [reflexivity |].
    destruct (sorted_last (y :: fs)); reflexivity.
  - destruct (sorted_first (x :: ss)) as [first | e]; [| reflexivity].
    cbn [children].
    destruct (mapM (getattr (fun r : TimedResourceReport => finish_time r)) (children self))
      as [finishes | e]; [| reflexivity].
    destruct (set_times finishes) as [| y fs]; [reflexivity |].
    destruct (sorted_last (y :: fs)); reflexivity.
Qed.

(** [add_report] appends the report, also when it raises afterwards. *)
Lemma add_report_children (report : child) (self : TimelineReport) :
  children (snd (add_report report self)) = children self ++ [report].
Proof.
  unfold add_report, seq, get_children, set_children. cbn [fst snd].
  rewrite recalculate_times_children. reflexivity.
Qed.

Lemma run_call_free (o : call) (st : Reporter.t) :
  Reporter.lock st = false ->
  exists st', run_call o st = (true, st') /\ Reporter.lock st' = false /\
              children (Reporter.timeline_report st')
              = added [o] (children (Reporter.timeline_report st)).
Proof.
  intros Hfree. destruct o as [| | report];
    unfold run_call, Reporter.clear, Reporter.get_report, Reporter.with_Reporter;
    rewrite Hfree.
  - eexists. split; [reflexivity |]. split; reflexivity.
  - eexists. split; [reflexivity |]. split; reflexivity.
  - unfold Reporter.add_report. cbn [Reporter.timeline_report Reporter.lock].
    pose proof (add_report_children report (Reporter.timeline_report st)) as Hch.
    destruct (add_report report (Reporter.timeline_report st)) as [r tl].
    eexists. split; [reflexivity |]. split; [reflexivity |]. exact Hch.
Qed.

Lemma run_calls_free (os : list call) : forall st,
  Reporter.lock st = false ->
  exists st', run_calls os st = (true, st') /\ Reporter.lock st' = false /\
              children (Reporter.timeline_report st')
              = added os (children (Reporter.timeline_report st)).
Proof.
  induction os as [| o os IH]; intros st Hfree; cbn [run_calls].
  - exists st. repeat split. exact Hfree.
  - destruct (run_call_free o st Hfree) as (st1 & -> & Hfree1 & Hch1).
    destruct (IH st1 Hfree1) as (st2 & Hrun & Hfree2 & Hch2).
    exists st2. split; [exact Hrun |]. split; [exact Hfree2 |].
    rewrite Hch2, Hch1. destruct o; reflexivity.
Qed.

(** X11: from the [Reporter] as the module defines it, calls of [clear],
    [get_report] and [add_report] under the lock, in any number and order,
    never block and leave the lock free, and the shared timeline holds the
    reports added since the last [clear], in the order of the calls, also
    those whose [add_report] raised; a call of [clear] or [get_report]
    made while the lock is held blocks. *)
Theorem reporter_calls (os : list call) :
  (exists st,
     run_calls os Reporter.initial = (true, st) /\
     Reporter.lock st = false /\
     children (Reporter.timeline_report st) = added os []) /\
  (forall tl,
     Reporter.clear (Reporter.mk tl true) = (Blocks, Reporter.mk tl true) /\
     Reporter.get_report (Reporter.mk tl true) = (Blocks, Reporter.mk tl true)).
Proof.
  split.
  - exact (run_calls_free os Reporter.initial eq_refl).
  - intros tl. split; reflexivity.
Qed.

Lemma to_yaml_state (safe_dump : pyval -> string) (self : TimelineReport) :
  forallb is_report (children self) = true ->
  to_yaml safe_dump self =
  (Ok (safe_dump (VDict (timeline_vars self
                           (map VDict (map report_vars (reports_of (children self))))))),
   {| children := dicts_of (children self); span := span self |}).
Proof.
  intros Hreports. unfold to_yaml, seq, lift, get_children, set_children.
  rewrite (mapM_vars _ Hreports). reflexivity.
Qed.

Lemma write_report_first (safe_dump : pyval -> string) (filename : string)
    (tl : TimelineReport) (fs : string -> option string) :
  forallb is_report (children tl) = true ->
  write_report safe_dump filename {| reporter := Reporter.mk tl false; files := fs |} =
  (Returns (Ok tt),
   {| reporter := Reporter.mk {| children := dicts_of (children tl); span := span tl |} false;
      files := write_file filename
                 (safe_dump (VDict (timeline_vars tl
                    (map VDict (map report_vars (reports_of (children tl)))))))
                 (write_file filename EmptyString fs) |}).
Proof.
  intros Hreports. unfold write_report, Reporter.get_report, Reporter.with_Reporter.
  cbn [reporter files Reporter.lock Reporter.timeline_report].
  rewrite (to_yaml_state safe_dump tl Hreports). reflexivity.
Qed.

Lemma write_report_again (safe_dump : pyval -> string) (filename : string)
    (d : list (string * pyval)) (cs : list child) (sp : TimedReport)
    (fs : string -> option string) :
  write_report safe_dump filename
    {| reporter := Reporter.mk {| children := Dict d :: cs; span := sp |} false;
       files := fs |} =
  (Returns (Raise TypeError),
   {| reporter := Reporter.mk {| children := Dict d :: cs; span := sp |} false;
      files := write_file filename EmptyString fs |}).
Proof. reflexivity. Qed.

(** X12: [write_report] works once.  With the lock free and a shared
    timeline of at least one report, the first call writes the dump to the
    file and leaves the lock free, but leaves dictionaries in place of the
    children of the shared timeline; a second call then raises [TypeError]
    after it has emptied the file, so that the report written before is
    lost, and [add_report] on the [Reporter] raises [AttributeError]. *)
Theorem write_report_twice (safe_dump : pyval -> string) (filename : string)
    (tl : TimelineReport) (fs : string -> option string) :
  forallb is_report (children tl) = true ->
  children tl <> [] ->
  let w := {| reporter := Reporter.mk tl false; files := fs |} in
  let text := safe_dump (VDict (timeline_vars tl
                  (map VDict (map report_vars (reports_of (children tl)))))) in
  let w1 := snd (write_report safe_dump filename w) in
  let w2 := snd (write_report safe_dump filename w1) in
  fst (write_report safe_dump filename w) = Returns (Ok tt) /\
  files w1 filename = Some text /\
  Reporter.lock (reporter w1) = false /\
  children (Reporter.timeline_report (reporter w1)) = dicts_of (children tl) /\
  fst (write_report safe_dump filename w1) = Returns (Raise TypeError) /\
  files w2 filename = Some EmptyString /\
  (forall report,
     fst (Reporter.add_report report (reporter w1)) = Raise AttributeError).
Proof.
  intros Hreports Hne. cbv zeta.
  rewrite (write_report_first safe_dump filename tl fs Hreports). cbn [fst snd].
  unfold dicts_of.
  destruct (children tl) as [| [r | d] cs] eqn:Hch; [contradiction | | discriminate Hreports].
  cbn [reports_of map]. rewrite write_report_again.
  cbn [fst snd reporter files Reporter.lock Reporter.timeline_report children].
  split; [reflexivity |].
  split; [unfold write_file; rewrite String.eqb_refl; reflexivity |].
  split; [reflexivity |]. split; [reflexivity |]. split; [reflexivity |].
  split; [unfold write_file; rewrite String.eqb_refl; reflexivity |].
  intros report. reflexivity.
Qed.

Lemma write_report_twice_witness :
  let tl := timeline_of [Report (report_at (PInt 2) (PInt 1) 3 30)]
                        (mkTimedReport (Some 3) (Some 30)) in
  let w := {| reporter := Reporter.mk tl false; files := fun _ => None |} in
  let w1 := snd (write_report (fun _ => "report"%string) "out.yaml" w) in
  files w1 "out.yaml"%string = Some "report"%string /\
  fst (write_report (fun _ => "report"%string) "out.yaml" w1) = Returns (Raise TypeError) /\
  files (snd (write_report (fun _ => "report"%string) "out.yaml" w1)) "out.yaml"%string
    = Some EmptyString.
Proof.
  cbv zeta.
  pose proof (write_report_twice (fun _ => "report"%string) "out.yaml"
                (timeline_of [Report (report_at (PInt 2) (PInt 1) 3 30)]
                             (mkTimedReport (Some 3) (Some 30)))
                (fun _ => None) eq_refl ltac:(discriminate)) as H.
  cbv zeta in H. destruct H as (_ & H1 & _ & _ & H2 & H3 & _).
  split; [exact H1 |]. split; [exact H2 | exact H3].
Defined.

(** ** Totals: what raises and what cannot be negative *)

Lemma mapM_ok_in {A B : Type} (f : A -> res B) (l : list A) (bs : list B) :
  mapM f l = Ok bs -> forall a, In a l -> exists b, f a = Ok b.
Proof.
  revert bs. induction l as [| x l IH]; intros bs H a Hin; [contradiction |].
  cbn [mapM] in H. destruct (f x) as [b |] eqn:Hx; cbn [bind] in H; [| discriminate H].
  destruct (mapM f l) as [bs' |]; cbn [bind] in H; [| discriminate H].
  destruct Hin as [<- | Hin]; [exists b; exact Hx | exact (IH bs' eq_refl a Hin)].
Qed.

Lemma hours_of_backwards (r : TimedResourceReport) (s f : datetime) :
  start_time r = Some s -> finish_time r = Some f -> f < s ->
  cpu_hours r = Raise (ValueError_NegativeTime (Timedelta.total_seconds (f - s))) /\
  ram_megabyte_hours r = Raise (ValueError_NegativeTime (Timedelta.total_seconds (f - s))).
Proof.
  intros Hs Hf Hfs. unfold cpu_hours, ram_megabyte_hours, elapsed_hours, elapsed_seconds.
  rewrite Hs, Hf.
  rewrite (ltb_zero_nonzero_sign _ (total_seconds_negative (f - s) ltac:(lia))).
  split; reflexivity.
Qed.

Lemma hours_of_unset (r : TimedResourceReport) :
  some_unset r = true ->
  cpu_hours r = Raise TypeError /\ ram_megabyte_hours r = Raise TypeError.
Proof.
  unfold some_unset, cpu_hours, ram_megabyte_hours, elapsed_hours, elapsed_seconds.
  destruct (start_time r), (finish_time r); try discriminate; intros _; split; reflexivity.
Qed.

(** X13: one report that finishes before it starts, or that has an instant
    not set, is enough for [total_cpu_hours] and
    [total_ram_megabyte_hours] to raise instead of returning a total; the
    totals of the other reports are lost with it. *)
Theorem total_hours_poisoned (self : TimelineReport) (r : TimedResourceReport) :
  In (Report r) (children self) ->
  (some_unset r = true \/
   exists s f, start_time r = Some s /\ finish_time r = Some f /\ f < s) ->
  (exists e, fst (total_cpu_hours self) = Raise e) /\
  (exists e, fst (total_ram_megabyte_hours self) = Raise e).
Proof.
  intros Hin Hbad.
  assert (Hfail : (exists e, cpu_hours r = Raise e) /\ (exists e, ram_megabyte_hours r = Raise e)).
  { destruct Hbad as [Hunset | (s & f & Hs & Hf & Hfs)].
    - destruct (hours_of_unset r Hunset) as [-> ->]. split; eexists; reflexivity.
    - destruct (hours_of_backwards r s f Hs Hf Hfs) as [-> ->]. split; eexists; reflexivity. }
  destruct Hfail as [(e1 & He1) (e2 & He2)].
  unfold total_cpu_hours, total_ram_megabyte_hours, seq, lift, get_children. cbn [fst].
  split.
  - destruct (mapM _ (children self)) as [hs | e] eqn:Hmap; [| exists e; reflexivity].
    destruct (mapM_ok_in _ _ _ Hmap (Report r) Hin) as (b & Hb).
    cbn [getattr bind] in Hb. congruence.
  - destruct (mapM _ (children self)) as [hs | e] eqn:Hmap; [| exists e; reflexivity].
    destruct (mapM_ok_in _ _ _ Hmap (Report r) Hin) as (b & Hb).
    cbn [getattr bind] in Hb. congruence.
Qed.

Lemma total_hours_poisoned_witness :
  exists e,
    fst (total_cpu_hours
           (timeline_of [Report (report_at (PInt 2) (PInt 1) 0 3600000000);
                         Report (report_at (PInt 2) (PInt 1) 9 3)]
                        (mkTimedReport None None))) = Raise e.
Proof.
  refine (proj1 (total_hours_poisoned
                   (timeline_of [Report (report_at (PInt 2) (PInt 1) 0 3600000000);
                                 Report (report_at (PInt 2) (PInt 1) 9 3)]
                                (mkTimedReport None None))
                   (report_at (PInt 2) (PInt 1) 9 3) _ _)).
  - right. left. reflexivity.
  - right. exists 9, 3. split; [reflexivity |]. split; [reflexivity | lia].
Defined.

(** ** Totals are never below zero *)

Lemma has_sign_not_negative (x : spec_float) : has_sign false x -> not_negative x = true.
Proof. intros []; reflexivity. Qed.

Lemma not_negative_cases (x : spec_float) :
  not_negative x = true -> has_sign false x \/ x = S754_nan.
Proof.
  destruct x as [[] | [] | | [] m e]; cbn; try discriminate; intros _;
    (left; constructor) || (right; reflexivity).
Qed.

Lemma div_core_nonneg (m1 m2 : positive) (e1 e2 : Z) :
  0 <= fst (fst (SFdiv_core_binary Float.prec Float.emax (Z.pos m1) e1 (Z.pos m2) e2)).
Proof.
  unfold SFdiv_core_binary.
  set (e' := Z.min _ _).
  set (m' := match e1 - e2 - e' with 0 => Z.pos m1 | Z.pos _ => _ | Z.neg _ => 0 end).
  assert (Hm' : 0 <= m').
  { unfold m'. destruct (e1 - e2 - e'); try lia. apply Z.shiftl_nonneg. lia. }
  pose proof (div_eucl_fst m' (Z.pos m2)) as Hq.
  destruct (Z.div_eucl m' (Z.pos m2)) as [q r]. cbn [fst] in *.
  rewrite Hq. apply Z.div_pos; lia.
Qed.

(** Dividing a float that is not negative by a positive finite float
    gives a float that is not negative. *)
Lemma div_positive_sign (x : spec_float) (m : positive) (e : Z) :
  has_sign false x -> has_sign false (Float.div x (S754_finite false m e)).
Proof.
  intros [| mx ex |]; unfold Float.div; cbn [SFdiv xorb]; try constructor.
  pose proof (div_core_nonneg mx m ex e) as Hq.
  destruct (SFdiv_core_binary Float.prec Float.emax (Z.pos mx) ex (Z.pos m) e) as [[mz ez] lz].
  cbn [fst] in Hq. apply binary_round_aux_sign. exact Hq.
Qed.

Lemma mul_not_negative (w h : spec_float) :
  not_negative w = true -> has_sign false h -> not_negative (Float.mul w h) = true.
Proof.
  intros Hw Hh. destruct (not_negative_cases w Hw) as [Hs | ->]; [| reflexivity].
  destruct Hs as [| mw ew |], Hh as [| mh eh |]; unfold Float.mul; cbn [SFmul xorb];
    try reflexivity.
  apply has_sign_not_negative, binary_round_aux_sign. lia.
Qed.

Lemma binary_normalize_pos_sign (m : positive) (e : Z) :
  has_sign false (binary_normalize Float.prec Float.emax (Z.pos m) e false).
Proof.
  unfold binary_normalize, binary_round.
  destruct (shl_align m e _) as [mz ez]. apply binary_round_aux_sign. lia.
Qed.

Lemma add_not_negative (a b : spec_float) :
  not_negative a = true -> not_negative b = true -> not_negative (Float.add a b) = true.
Proof.
  intros Ha Hb.
  destruct (not_negative_cases a Ha) as [Hsa | ->]; [| reflexivity].
  destruct (not_negative_cases b Hb) as [Hsb | ->]; [| destruct a; reflexivity].
  destruct Hsa as [| ma ea |], Hsb as [| mb eb |]; unfold Float.add; cbn [SFadd cond_Zopp];
    try reflexivity.
  apply has_sign_not_negative.
  set (ez := Z.min ea eb).
  destruct (shl_align ma ea ez) as [ma' ea'], (shl_align mb eb ez) as [mb' eb'].
  cbn [fst Z.add]. apply binary_normalize_pos_sign.
Qed.

Lemma not_negative_ltb (x : spec_float) :
  not_negative x = true -> Num.ltb (PFloat x) (PInt 0) = false.
Proof.
  intros H. destruct (not_negative_cases x H) as [Hs | ->];
    [exact (ltb_zero_has_sign x Hs) | reflexivity].
Qed.

Lemma sum_from_not_negative (l : list num) : forall acc,
  not_negative acc = true ->
  Forall (fun n => exists x, n = PFloat x /\ not_negative x = true) l ->
  exists y, Num.sum_from (PFloat acc) l = Ok (PFloat y) /\ not_negative y = true.
Proof.
  induction l as [| n l IH]; intros acc Hacc Hall; cbn [Num.sum_from].
  - exists acc. split; [reflexivity | exact Hacc].
  - apply Forall_cons_iff in Hall as [(x & -> & Hx) Hall].
    cbn [Num.add Num.arith Num.to_float bind].
    apply IH; [apply add_not_negative; assumption | exact Hall].
Qed.

Lemma sum_sound (l : list num) :
  Forall (fun n => exists x, n = PFloat x /\ not_negative x = true) l ->
  exists t, Num.sum l = Ok t /\ sound_total t.
Proof.
  unfold Num.sum. destruct l as [| n l]; intros Hall.
  - exists (PInt 0). split; [reflexivity | left; reflexivity].
  - apply Forall_cons_iff in Hall as [(x & -> & Hx) Hall].
    cbn [Num.sum_from].
    assert (Hfirst : Num.add (PInt 0) (PFloat x) = Ok (PFloat (Float.add (S754_zero false) x)))
      by reflexivity.
    rewrite Hfirst. cbn [bind].
    destruct (sum_from_not_negative l (Float.add (S754_zero false) x)
                (add_not_negative (S754_zero false) x eq_refl Hx) Hall) as (y & -> & Hy).
    exists (PFloat y). split; [reflexivity |]. right. exists y. split; [reflexivity | exact Hy].
Qed.

(** The hours of a sound report: floats that are not below zero. *)
Lemma hours_of_sound (r : TimedResourceReport) :
  sound_report r = true ->
  (exists x, cpu_hours r = Ok (PFloat x) /\ not_negative x = true) /\
  (exists x, ram_megabyte_hours r = Ok (PFloat x) /\ not_negative x = true).
Proof.
  unfold sound_report. intros H.
  destruct (start_time r) as [s |] eqn:Hs; [| discriminate H].
  destruct (finish_time r) as [f |] eqn:Hf; [| discriminate H].
  destruct (cpus r) as [| c] eqn:Hc; [discriminate H |].
  destruct (ram_megabytes r) as [| m] eqn:Hm; [discriminate H |].
  apply andb_prop in H as [H Hnm]. apply andb_prop in H as [Hsf Hnc].
  apply Z.leb_le in Hsf.
  pose proof (total_seconds_nonneg (f - s) ltac:(lia)) as Hsign.
  assert (Hhours : elapsed_hours r
                   = Ok (PFloat (Float.div (Timedelta.total_seconds (f - s)) SECONDS_PER_HOUR))).
  { unfold elapsed_hours, elapsed_seconds. rewrite Hs, Hf.
    rewrite (ltb_zero_has_sign _ Hsign). reflexivity. }
  assert (Hdiv : has_sign false
                   (Float.div (Timedelta.total_seconds (f - s)) SECONDS_PER_HOUR)).
  { change SECONDS_PER_HOUR with (S754_finite false 7916483719987200 (-41)).
    apply div_positive_sign. exact Hsign. }
  unfold cpu_hours, ram_megabyte_hours. rewrite Hhours, Hc, Hm. cbn [bind].
  split; eexists; (split; [reflexivity | apply mul_not_negative; assumption]).
Qed.

(** X14: on a timeline of reports whose instants are set, the start not
    after the finish, and whose CPUs and megabytes are floats not below
    zero, [total_cpu_hours] and [total_ram_megabyte_hours] return, and
    what they return is never below zero: the int [0] of a timeline with no
    child, or a float that is not negative. *)
Theorem total_hours_not_negative (self : TimelineReport) :
  forallb sound_child (children self) = true ->
  (exists t, fst (total_cpu_hours self) = Ok t /\ sound_total t /\
             Num.ltb t (PInt 0) = false) /\
  (exists t, fst (total_ram_megabyte_hours self) = Ok t /\ sound_total t /\
             Num.ltb t (PInt 0) = false).
Proof.
  intros Hsound.
  assert (Hmap : forall hours_of : TimedResourceReport -> res num,
    (forall r, sound_report r = true ->
       exists x, hours_of r = Ok (PFloat x) /\ not_negative x = true) ->
    exists hs, mapM (fun c => r <- getattr (fun r => r) c ;; hours_of r) (children self) = Ok hs /\
               Forall (fun n => exists x, n = PFloat x /\ not_negative x = true) hs).
  { intros hours_of Hhours. revert Hsound.
    induction (children self) as [| [r | d] cs IH]; cbn [forallb sound_child]; intros H.
    - exists []. split; [reflexivity | constructor].
    - apply andb_prop in H as [Hr Hcs]. destruct (IH Hcs) as (hs & Hhs & Hall).
      destruct (Hhours r Hr) as (x & Hx & Hnn).
      cbn [mapM getattr bind]. rewrite Hx, Hhs. cbn [bind].
      exists (PFloat x :: hs). split; [reflexivity |].
      constructor; [exists x; split; [reflexivity | exact Hnn] | exact Hall].
    - discriminate H. }
  assert (Hlt : forall t, sound_total t -> Num.ltb t (PInt 0) = false).
  { intros t [-> | (x & -> & Hx)]; [reflexivity | exact (not_negative_ltb x Hx)]. }
  unfold total_cpu_hours, total_ram_megabyte_hours, seq, lift, get_children. cbn [fst].
  split.
  - destruct (Hmap cpu_hours (fun r Hr => proj1 (hours_of_sound r Hr))) as (hs & -> & Hall).
    destruct (sum_sound hs Hall) as (t & -> & Ht).
    exists t. split; [reflexivity |]. split; [exact Ht | exact (Hlt t Ht)].
  - destruct (Hmap ram_megabyte_hours (fun r Hr => proj2 (hours_of_sound r Hr)))
      as (hs & -> & Hall).
    destruct (sum_sound hs Hall) as (t & -> & Ht).
    exists t. split; [reflexivity |]. split; [exact Ht | exact (Hlt t Ht)].
Qed.

Lemma total_hours_not_negative_witness :
  exists t,
    fst (total_cpu_hours
           (timeline_of [Report (report_at (PFloat (Float.of_decimal 5 (-1)))
                                   (PFloat (Float.of_Z 512)) 0 3600000000);
                         Report (report_at (PFloat (Float.of_Z 0))
                                   (PFloat (Float.of_Z 64)) 5 5)]
                        (mkTimedReport None None))) = Ok t /\
    Num.ltb t (PInt 0) = false.
Proof.
  destruct (total_hours_not_negative
              (timeline_of [Report (report_at (PFloat (Float.of_decimal 5 (-1)))
                                      (PFloat (Float.of_Z 512)) 0 3600000000);
                            Report (report_at (PFloat (Float.of_Z 0))
                                      (PFloat (Float.of_Z 64)) 5 5)]
                           (mkTimedReport None None)) eq_refl)
    as [(t & Ht & _ & Hlt) _].
  exists t. split; [exact Ht | exact Hlt].
Defined.

(** ** What the parsers reject *)

(** X15: [parse] raises its [ValueError] on every string that ends with no
    suffix of the table and is empty or ends with a character no numeral
    ends with, such as a suffix of the other parser; and [parse] of the
    base class, which has no table, raises it on every string. *)
Theorem parse_rejects (cls : ParserClass) (value : string) :
  (forall items,
     suffixes cls = Some items ->
     ends_with_none items value = true ->
     ends_oddly value = true ->
     parse cls value = unparseable cls value) /\
  parse ResourceParser value = unparseable ResourceParser value.
Proof.
  split; [| reflexivity].
  intros items Hitems Hnone Hodd.
  unfold parse, parse_try, unparseable. rewrite Hitems.
  rewrite (parse_items_no_suffix _ _ Hnone). unfold float_of_str.
  destruct (Str.to_float value) as [x |] eqn:Hx; [| reflexivity].
  destruct (to_float_last _ _ Hx) as (c & Hc & Hend).
  unfold ends_oddly in Hodd. rewrite Hc, Hend in Hodd. discriminate Hodd.
Qed.

Lemma parse_rejects_witness :
  parse MemoryParser "200m" = unparseable MemoryParser "200m" /\
  parse CPUParser "1Gi" = unparseable CPUParser "1Gi" /\
  parse CPUParser "" = unparseable CPUParser "".
Proof.
  split; [| split].
  - exact (proj1 (parse_rejects MemoryParser "200m") _ eq_refl eq_refl eq_refl).
  - exact (proj1 (parse_rejects CPUParser "1Gi") _ eq_refl eq_refl eq_refl).
  - exact (proj1 (parse_rejects CPUParser "") _ eq_refl eq_refl eq_refl).
Defined.
